(** * go-fanbox: the fetch-and-download pipeline

    A shallow embedding of the [fanbox] package (the session client of
    [fanbox/session.go] and the content model) and of the downloader's
    [main] package ([poll], [downloadPage], the atomic write protocol and
    [sanitizePath]), followed by the properties of the specification.

    Strings are byte strings, as Go's are.  Go's [int] is [Z]; none of the
    integers of this program is involved in arithmetic that could wrap.  The
    operating system, the HTTP transport and the JSON decoder are not part of
    the repository: the file system is a finite map from cleaned paths to
    nodes with the POSIX behaviour of the calls the program makes, the
    transport is an oracle with a log of the requests it was handed, the
    cookie jar is what it yields for a URL at each request, and the decoders
    are parameters. *)

From Stdlib Require Import ZArith Ascii String List Bool Lia.
From stdpp Require Import gmap strings list fin_maps pretty.

Local Open Scope string_scope.
Local Open Scope Z_scope.

(* ===================================================================== *)
(** * Package fanbox *)
(* ===================================================================== *)

Module Fanbox.

(** ** The content model *)

Definition ItemType := string.
Definition ItemTypeArticle : ItemType := "article".
Definition ItemTypeImage : ItemType := "image".
Definition ItemTypeFile : ItemType := "file".

(** [DateTime] is a [time.Time]; the program only ever formats its calendar
    date, so the instant is kept as its civil date. *)
Record DateTime := mkDateTime { dt_year : Z; dt_month : Z; dt_day : Z }.

Record User := mkUser { UserID : string; Name : string; IconURL : string }.

Record ItemBase := mkItemBase {
  ID : string;
  Title : string;
  Type_ : ItemType;
  CoverImageURL : string;
  FeeRequired : Z;
  PublishedDateTime : DateTime;
  UpdatedDateTime : DateTime;
  Excerpt : string;
  IsLiked : bool;
  LikeCount : Z;
  CommentCount : Z;
  ItemUser : User;
  CreatorID : string;
  HasAdultContent : bool;
  Status : string
}.

Record Image := mkImage {
  ImageID : string;
  ImageExtension : string;
  Width : Z;
  Height : Z;
  OriginalURL : string;
  ThumbnailURL : string
}.

Record File := mkFile {
  FileExtension : string;
  FileID : string;
  FileName : string;
  FileSize : Z;
  FileURL : string
}.

Record ArticleBodyBlock := mkBlock {
  BlockType : string; BlockText : string; BlockImageID : string
}.

Record ArticleBody := mkArticleBody {
  Blocks : list ArticleBodyBlock;
  ImageMap : list (string * Image)
}.

Record ImageBody := mkImageBody { ImageText : string; Images : list Image }.

Record FileBody := mkFileBody { Files : list File; FileText : string }.

(** The [ItemBody] interface is implemented by exactly three pointer types;
    an interface value is one of them or nil. *)
Inductive ItemBody :=
| BodyNil
| BodyArticle (a : ArticleBody)
| BodyImage (b : ImageBody)
| BodyFile (f : FileBody).

Record Item := mkItem { base : ItemBase; Body : ItemBody }.

Record PageBody := mkPageBody { Items : list Item; NextURL : string }.
Record Page := mkPage { PBody : PageBody }.

(** ** Errors *)

Inductive error :=
| ErrCreateRequest (cause : string)
    (* "failed to create request" *)
| ErrDoRequest (cause : string)
    (* "failed to do request": the wrapped transport error *)
| ErrStatus (code : Z)
    (* "unexpected status code %d" *)
| ErrStatusBody (code : Z) (body : string)
    (* "unexpected status code %d, body %s" *)
| ErrDecodeJSON (cause : string)
    (* "failed to decode JSON" *)
| ErrItemBase (cause : string)
    (* "failed to unmarshal item base" *)
| ErrItemExact (cause : string).
    (* "failed to unmarshal into item of exact type" *)

(** ** Item.UnmarshalJSON *)

Section Decoding.
(** [json.Unmarshal(b, &i.ItemBase)]. *)
Variable unmarshalItemBase : string -> string + ItemBase.
(** [json.Unmarshal(b, &bodyContainer)] with [bodyContainer.Body] holding a
    pointer to a zero body of the variant: an error, or what the field holds
    afterwards.  That is the body decoded into the pointed struct, and nil
    ([None]) when the JSON has null under "body", since [encoding/json]
    sets an interface field to nil on a null. *)
Variable unmarshalArticleBody : string -> string + option ArticleBody.
Variable unmarshalImageBody : string -> string + option ImageBody.
Variable unmarshalFileBody : string -> string + option FileBody.

(** The interface value of [bodyContainer.Body] after decoding. *)
Definition bodyOf {B : Type} (wrap : B -> ItemBody) (held : option B)
    : ItemBody :=
  match held with
  | Some body => wrap body
  | None => BodyNil
  end.

(** The receiver [i] is a fresh zero [Item] when a page is decoded, so its
    [Body] is nil on entry. *)
Definition UnmarshalJSON (b : string) : error + Item :=
  match unmarshalItemBase b with
  | inl e => inl (ErrItemBase e)
  | inr ib =>
      if String.eqb (Type_ ib) ItemTypeArticle then
        match unmarshalArticleBody b with
        | inl e => inl (ErrItemExact e)
        | inr held => inr (mkItem ib (bodyOf BodyArticle held))
        end
      else if String.eqb (Type_ ib) ItemTypeImage then
        match unmarshalImageBody b with
        | inl e => inl (ErrItemExact e)
        | inr held => inr (mkItem ib (bodyOf BodyImage held))
        end
      else if String.eqb (Type_ ib) ItemTypeFile then
        match unmarshalFileBody b with
        | inl e => inl (ErrItemExact e)
        | inr held => inr (mkItem ib (bodyOf BodyFile held))
        end
      else
        (* log.Printf("Unknown item type: %q\n", i.Type); return nil *)
        inr (mkItem ib BodyNil)
  end.
End Decoding.

(** ** The session client *)

Definition OriginURL := "https://www.fanbox.cc".
Definition RefererURL := "https://www.fanbox.cc/".
Definition APIURL := "https://api.fanbox.cc".
Definition UserAgent :=
  "Mozilla/5.0 (X11; Linux x86_64) " ++
  "AppleWebKit/537.36 (KHTML, like Gecko) " ++
  "Chrome/88.0.4300.0 " ++
  "Safari/537.36".

(** [http.Header] is a [map[string][]string]; [Set] replaces the values
    stored under the key, [Get] is the first value stored under it, or the
    empty string.  The keys used here are in canonical form. *)
Definition Header := gmap string (list string).
Definition Header_Set (k v : string) (h : Header) : Header := <[k := [v]]> h.
Definition Header_Get (k : string) (h : Header) : string :=
  match h !! k with
  | Some (v :: _) => v
  | _ => ""
  end.

Record Request := mkRequest {
  Method : string; URL : string; ReqHeader : Header
}.

(** [Request.AddCookie], for a cookie already rendered as name=value: it is
    appended to the Cookie header after "; ", or becomes that header. *)
Definition AddCookie (c : string) (r : Request) : Request :=
  let old := Header_Get "Cookie" (ReqHeader r) in
  mkRequest (Method r) (URL r)
    (if String.eqb old "" then Header_Set "Cookie" c (ReqHeader r)
     else Header_Set "Cookie" (old ++ "; " ++ c) (ReqHeader r)).

Definition AddCookies (cs : list string) (r : Request) : Request :=
  fold_left (fun r c => AddCookie c r) cs r.

(** A response body: the bytes a reader obtains from it, whether reading
    ends in an error instead of EOF, and whether it has been closed. *)
Record ReadCloser := mkBody {
  rc_data : string;
  rc_err : option string;
  rc_closed : bool
}.

(** [ioutil.ReadAll]: everything that could be read, the error that ended
    the reading (nil at EOF), and the reader left empty. *)
Definition ReadAll (r : ReadCloser) : string * option string * ReadCloser :=
  if rc_closed r then ("", Some "read on closed body", r)
  else (rc_data r, rc_err r, mkBody "" (rc_err r) false).

Definition Close (r : ReadCloser) : ReadCloser :=
  mkBody (rc_data r) (rc_err r) true.

Record Response := mkResponse { StatusCode : Z; RespBody : ReadCloser }.

Inductive DoResult :=
| DoErr (cause : string)
| DoOk (r : Response).

(** [http.Client] with its cookie jar: what the network answers to the
    k-th request the client executes, the cookies [Jar.Cookies] holds for a
    URL at that moment (each rendered as name=value; the jar changes when a
    response sets cookies), and the requests executed so far, oldest first,
    each as it was when it went out. *)
Record Client := mkClient {
  answers : nat -> Request -> DoResult;
  jar : nat -> string -> list string;
  sent : list Request
}.

Record SessionClient := mkSessionClient { HTTPClient : Client; Retries : Z }.

(** [Client.Do]: the jar's cookies for the URL are added to the request it
    was handed, which is a pointer, so the caller's request keeps them; then
    the request goes out.  The result comes with the request as it is left. *)
Definition Client_Do (r : Request) (c : Client)
    : DoResult * Request * Client :=
  let k := length (sent c) in
  let r' := AddCookies (jar c k (URL r)) r in
  (answers c k r', r', mkClient (answers c) (jar c) (sent c ++ [r'])).

Definition Do (r : Request) (sc : SessionClient)
    : DoResult * Request * SessionClient :=
  let '(res, r', c) := Client_Do r (HTTPClient sc) in
  (res, r', mkSessionClient c (Retries sc)).

(** What [get] hands back: the named results [body] and [err]. *)
Record GetResult := mkGetResult {
  got_body : option ReadCloser;
  got_err : option error
}.

Section Session.
(** [http.NewRequest] fails exactly when [url.Parse] rejects the URL. *)
Variable parseURL : string -> option string.

Definition NewRequest (method url : string) : string + Request :=
  match parseURL url with
  | Some e => inl e
  | None => inr (mkRequest method url ∅)
  end.

Definition setHeaders (request : Request) (header : Header) : Request :=
  mkRequest (Method request) (URL request)
    (Header_Set "Dnt" "1"
      (Header_Set "User-Agent" UserAgent
        (Header_Set "Referer" RefererURL
          (Header_Set "Origin" OriginURL header)))).

(** The loop [for i := -1; i < sc.Retries; i++] with [n] iterations left;
    [request] is the one request every iteration hands to [Do], as the
    iterations so far left it, and [body] and [err] are the function's named
    results.  Every path through the loop body ends in [continue] except the
    one that reaches [break]. *)
Fixpoint getLoop (n : nat) (request : Request) (sc : SessionClient)
    (body : option ReadCloser) (err : option error)
    : GetResult * SessionClient :=
  match n with
  | O => (mkGetResult body err, sc)
  | S n' =>
      let '(res, request1, sc1) := Do request sc in
      match res with
      | DoErr e =>
          getLoop n' request1 sc1 body (Some (ErrDoRequest e))
      | DoOk r =>
          if true || (StatusCode r <? 200) || (StatusCode r >? 299) then
            let '(b, rerr, drained) := ReadAll (RespBody r) in
            let closed := Close drained in
            match rerr with
            | Some _ =>
                getLoop n' request1 sc1 (Some closed)
                  (Some (ErrStatus (StatusCode r)))
            | None =>
                getLoop n' request1 sc1 (Some closed)
                  (Some (ErrStatusBody (StatusCode r) b))
            end
          else
            (* break *)
            (mkGetResult (Some (RespBody r)) None, sc1)
      end
  end.

(** Number of times the loop condition [i < sc.Retries] holds, counting
    from [i = -1]. *)
Definition attempts (retries : Z) : nat := Z.to_nat (retries + 1).

Definition get (url : string) (header : Header) (sc : SessionClient)
    : GetResult * SessionClient :=
  match NewRequest "GET" url with
  | inl e => (mkGetResult None (Some (ErrCreateRequest e)), sc)
  | inr request =>
      getLoop (attempts (Retries sc)) (setHeaders request header) sc
        None None
  end.

Definition Download (url : string) (sc : SessionClient)
    : GetResult * SessionClient :=
  get url ∅ sc.

(** Outcome of a call that decodes: a value, an error, or the run-time
    panic of reading from a nil [io.Reader]. *)
Inductive outcome (A : Type) :=
| Value (a : A)
| Failed (e : error)
| Panicked.
Arguments Value {A} a.
Arguments Failed {A} e.
Arguments Panicked {A}.

Section Get.
Context {A : Type}.
(** [json.NewDecoder(r).Decode(v)] on the bytes of the body. *)
Variable decode : string -> string + A.

Definition Get (url : string) (sc : SessionClient)
    : outcome A * SessionClient :=
  let '(res, sc1) :=
    get url {[ "Accept" := ["application/json, text/plain, */*"] ]} sc in
  match got_err res with
  | Some e => (Failed e, sc1)
  | None =>
      match got_body res with
      | None => (Panicked, sc1)
      | Some r =>
          let '(b, rerr, _) := ReadAll r in
          match rerr with
          | Some e => (Failed (ErrDecodeJSON e), sc1)
          | None =>
              match decode b with
              | inl e => (Failed (ErrDecodeJSON e), sc1)
              | inr v => (Value v, sc1)
              end
          end
      end
  end.
End Get.

Section Posts.
Variable decodePage : string -> string + Page.

Definition PostsFromURL (url : string) (sc : SessionClient)
    : outcome Page * SessionClient :=
  Get decodePage url sc.

Definition Posts (sc : SessionClient) :=
  PostsFromURL (APIURL ++ "/post.listHome?limit=10") sc.

Definition SupportingPosts (sc : SessionClient) :=
  PostsFromURL (APIURL ++ "/post.listSupporting?limit=10") sc.
End Posts.
End Session.

Arguments Value {A} a.
Arguments Failed {A} e.
Arguments Panicked {A}.

End Fanbox.

(* ===================================================================== *)
(** * Package main *)
(* ===================================================================== *)

Module Main.
Import Fanbox.

(** ** CommaWords *)

Definition CommaWords := list string.

Definition Include (w : CommaWords) (word : string) : bool :=
  existsb (fun cw => String.eqb cw word) w.

(** ** Config *)

Record Config := mkConfig {
  SessionID : string;
  DestDir : string;
  MaxParallel : Z;
  MaxRetries : Z;
  MaxPageBehind : Z;
  PollFrequency : Z;
  AllowFileExts : CommaWords
}.

(** ** sanitizePath *)

(** The second argument of the first pair, byte for byte as the source file
    has it between the quotes: a space, the seven bytes
    C3 A2 CB 86 E2 80 A2, a space. *)
Definition slashReplacement : string :=
  String " " (String (ascii_of_nat 195) (String (ascii_of_nat 162)
  (String (ascii_of_nat 203) (String (ascii_of_nat 134)
  (String (ascii_of_nat 226) (String (ascii_of_nat 128)
  (String (ascii_of_nat 162) (String " " EmptyString)))))))).

Definition NUL : ascii := ascii_of_nat 0.
Definition slash : ascii := "/"%char.

(** [strings.NewReplacer] with old strings of one byte each: a table from
    bytes to their replacements, the first pair given for a byte winning. *)
Definition Replacer := list (ascii * string).

Definition sanitizer : Replacer := [(slash, slashReplacement); (NUL, "")].

Fixpoint replacement (r : Replacer) (c : ascii) : option string :=
  match r with
  | [] => None
  | (old, new) :: r' => if Ascii.eqb old c then Some new else replacement r' c
  end.

Fixpoint Replace (r : Replacer) (s : string) : string :=
  match s with
  | EmptyString => EmptyString
  | String c s' =>
      match replacement r c with
      | Some new => new ++ Replace r s'
      | None => String c (Replace r s')
      end
  end.

Definition sanitizePath (part : string) : string := Replace sanitizer part.

(** ** Paths *)

(** A cleaned path, as [filepath.Clean] leaves it: whether it starts at the
    root, and its elements in order (none of them empty or ".", and ".."
    only in front of a path that is not rooted). *)
Abbreviation Path := (bool * list string)%type.

(** [strings.Split(s, "/")]. *)
Fixpoint splitSlash (s : string) : list string :=
  match s with
  | EmptyString => [EmptyString]
  | String c s' =>
      if Ascii.eqb c slash then EmptyString :: splitSlash s'
      else match splitSlash s' with
           | x :: xs => String c x :: xs
           | [] => [String c EmptyString]
           end
  end.

(** The lexical rules of [filepath.Clean], element by element; [out] holds
    the elements kept so far, last one first. *)
Fixpoint cleanOnto (rooted : bool) (out : list string) (l : list string)
    : list string :=
  match l with
  | [] => rev out
  | e :: l' =>
      if String.eqb e "" || String.eqb e "." then cleanOnto rooted out l'
      else if String.eqb e ".." then
        match out with
        | top :: out' =>
            if String.eqb top ".." then cleanOnto rooted (e :: out) l'
            else cleanOnto rooted out' l'
        | [] =>
            if rooted then cleanOnto rooted [] l'
            else cleanOnto rooted [e] l'
        end
      else cleanOnto rooted (e :: out) l'
  end.

Definition startsWithSlash (s : string) : bool :=
  match s with
  | String c _ => Ascii.eqb c slash
  | EmptyString => false
  end.

(** [filepath.Join(elem...)]: empty elements in front are ignored, the rest
    is joined with separators and cleaned. *)
Fixpoint dropEmpty (elem : list string) : list string :=
  match elem with
  | e :: elem' => if String.eqb e "" then dropEmpty elem' else elem
  | [] => []
  end.

Definition Join (elem : list string) : Path :=
  let rest := dropEmpty elem in
  let rooted := match rest with e :: _ => startsWithSlash e | [] => false end in
  (rooted, cleanOnto rooted [] (concat (map splitSlash rest))).

(** [filepath.Join(dir, name)] for a [dir] that is itself the result of a
    [Join]: the elements of [name] are cleaned onto those of [dir]. *)
Definition JoinDir (dir : Path) (name : string) : Path :=
  (fst dir, cleanOnto (fst dir) (rev (snd dir)) (splitSlash name)).

(** [filepath.Base]: "." for the empty path, the separator for a path made
    of separators only, and otherwise the last element, trailing separators
    not counting. *)
Definition Base (path : string) : string :=
  if String.eqb path "" then "."
  else
    match filter (fun e => negb (String.eqb e "")) (splitSlash path) with
    | [] => "/"
    | e :: es => List.last es e
    end.

(** ** The file system *)

Inductive Node :=
| NFile (content : string)
| NDir.

Inductive errno := ENOENT | ENOTDIR | EISDIR | EEXIST | ENOTEMPTY.

Abbreviation FS := (gmap Path Node).

(** The root, the working directory and the directories above it are always
    there. *)
Definition anchor (p : Path) : bool :=
  forallb (fun e => String.eqb e "..") (snd p).

Definition lstat (fs : FS) (p : Path) : option Node :=
  if anchor p then Some NDir else fs !! p.

Definition parent (p : Path) : Path := (fst p, removelast (snd p)).

Definition isDir (fs : FS) (p : Path) : bool :=
  match lstat fs p with Some NDir => true | _ => false end.

(** [os.Stat]: only whether it fails is ever looked at. *)
Definition Stat (fs : FS) (p : Path) : option errno :=
  match lstat fs p with Some _ => None | None => Some ENOENT end.

Definition Mkdir (p : Path) (fs : FS) : option errno * FS :=
  match lstat fs p with
  | Some _ => (Some EEXIST, fs)
  | None =>
      match lstat fs (parent p) with
      | Some NDir => (None, <[p := NDir]> fs)
      | Some (NFile _) => (Some ENOTDIR, fs)
      | None => (Some ENOENT, fs)
      end
  end.

(** [os.MkdirAll]: the fast path on what is at [path], then the parent,
    then [Mkdir]; [elems] are the elements of the path, last one first. *)
Fixpoint mkdirAll (rooted : bool) (elems : list string) (fs : FS)
    : option errno * FS :=
  match lstat fs (rooted, rev elems) with
  | Some NDir => (None, fs)
  | Some (NFile _) => (Some ENOTDIR, fs)
  | None =>
      match elems with
      | [] => (None, fs)
      | _ :: up =>
          match mkdirAll rooted up fs with
          | (Some e, fs') => (Some e, fs')
          | (None, fs') => Mkdir (rooted, rev elems) fs'
          end
      end
  end.

Definition MkdirAll (p : Path) (fs : FS) : option errno * FS :=
  mkdirAll (fst p) (rev (snd p)) fs.

(** [os.Create]: the file is created or truncated. *)
Definition Create (p : Path) (fs : FS) : option errno * FS :=
  match lstat fs p with
  | Some NDir => (Some EISDIR, fs)
  | _ =>
      match lstat fs (parent p) with
      | Some NDir => (None, <[p := NFile ""]> fs)
      | Some (NFile _) => (Some ENOTDIR, fs)
      | None => (Some ENOENT, fs)
      end
  end.

(** [io.Copy(f, r)] into the file opened at [p]: what the reader delivers is
    appended, and the reader's error, if any, is the result. *)
Definition Copy (p : Path) (r : ReadCloser) (fs : FS) : option string * FS :=
  let '(b, rerr, _) := ReadAll r in
  match fs !! p with
  | Some (NFile c) => (rerr, <[p := NFile (c ++ b)]> fs)
  | _ => (Some "bad file descriptor", fs)
  end.

Definition hasEntries (fs : FS) (p : Path) : bool :=
  bool_decide (map_Exists (fun q _ => parent q = p /\ q <> p) fs).

(** [os.Remove]: a file, or a directory without entries. *)
Definition Remove (p : Path) (fs : FS) : option errno * FS :=
  match fs !! p with
  | Some (NFile _) => (None, delete p fs)
  | Some NDir =>
      if hasEntries fs p then (Some ENOTEMPTY, fs) else (None, delete p fs)
  | None => (Some ENOENT, fs)
  end.

(** [os.Rename] of a regular file (the program renames nothing else): it
    replaces a file at the new path and refuses a directory there. *)
Definition Rename (old new : Path) (fs : FS) : option errno * FS :=
  match fs !! old with
  | Some (NFile c) =>
      match lstat fs new with
      | Some NDir => (Some EISDIR, fs)
      | _ =>
          match lstat fs (parent new) with
          | Some NDir => (None, <[new := NFile c]> (delete old fs))
          | Some (NFile _) => (Some ENOTDIR, fs)
          | None => (Some ENOENT, fs)
          end
      end
  | Some NDir => (Some EISDIR, fs)
  | None => (Some ENOENT, fs)
  end.

(** ** Errors of package main *)

Inductive error :=
| ErrMkdir (e : errno)
    (* "failed to mkdir -p for item" *)
| ErrCreateTmp (e : errno)
    (* "failed to create tmp image file" *)
| ErrCopyTmp (cause : string)
    (* "failed to download image to tmp file" *)
| ErrRestoreTmp (e : errno)
    (* "failed to restore image tmp to dst" *)
| ErrGetPage (page : Z) (e : Fanbox.error)
    (* "failed to get supporting posts page %d: %w" *)
| ErrDownloadPage (page : Z) (e : error).
    (* "failed to download page %d: %w" *)

(** ** The atomic write protocol *)

Definition writeTmp (dst tmp : Path) (r : ReadCloser) (fs : FS)
    : option error * FS :=
  match Create tmp fs with
  | (Some e, fs1) => (Some (ErrCreateTmp e), fs1)
  | (None, fs1) =>
      match Copy tmp r fs1 with
      | (Some e, fs2) =>
          (* f.Close(); os.Remove(tmp) *)
          (Some (ErrCopyTmp e), snd (Remove tmp fs2))
      | (None, fs2) =>
          (* f.Close() *)
          match Rename tmp dst fs2 with
          | (Some e, fs3) => (Some (ErrRestoreTmp e), fs3)
          | (None, fs3) => (None, fs3)
          end
      end
  end.

(** [strings.NewReader(text)]. *)
Definition NewReader (text : string) : ReadCloser := mkBody text None false.

(** [binary.LittleEndian.PutUint64] and [PutUint32]: the [n] low bytes of
    [v], lowest first. *)
Definition littleEndian (n : nat) (v : Z) : list Z :=
  map (fun i => Z.land (Z.shiftr v (8 * Z.of_nat i)) 255) (seq 0 n).

Definition encodeURL : string :=
  "ABCDEFGHIJKLMNOPQRSTUVWXYZabcdefghijklmnopqrstuvwxyz0123456789-_".

Definition sextet (v : Z) : string :=
  match String.get (Z.to_nat (Z.land v 63)) encodeURL with
  | Some c => String c EmptyString
  | None => EmptyString
  end.

(** [base64.RawURLEncoding.EncodeToString]: no padding. *)
Fixpoint EncodeToString (buf : list Z) : string :=
  match buf with
  | b0 :: b1 :: b2 :: rest =>
      let v := Z.lor (Z.lor (Z.shiftl b0 16) (Z.shiftl b1 8)) b2 in
      (sextet (Z.shiftr v 18) ++ sextet (Z.shiftr v 12) ++
       sextet (Z.shiftr v 6) ++ sextet v ++ EncodeToString rest)%string
  | [b0; b1] =>
      let v := Z.lor (Z.shiftl b0 16) (Z.shiftl b1 8) in
      (sextet (Z.shiftr v 18) ++ sextet (Z.shiftr v 12) ++
       sextet (Z.shiftr v 6))%string
  | [b0] =>
      let v := Z.shiftl b0 16 in
      (sextet (Z.shiftr v 18) ++ sextet (Z.shiftr v 12))%string
  | [] => EmptyString
  end.

(** [tmpFilename] from the two values it draws: [time.Now().UnixNano()],
    converted to [uint64], and [rand.Uint32()]. *)
Definition tmpFilenameOf (nano rnd : Z) : string :=
  (".tmp." ++
   EncodeToString (littleEndian 8 (nano mod 2 ^ 64) ++ littleEndian 4 rnd))
  %string.

(** ** The semaphore ([golang.org/x/sync/semaphore]) *)

Record Weighted := mkWeighted { size : Z; cur : Z }.

Definition NewWeighted (n : Z) : Weighted := mkWeighted n 0.

(** ** The session, as package main uses it *)

(** The methods of [*fanbox.Session] that package main calls, each taking
    the session to its next state, and the field [Retries] that [main]
    assigns. *)
Class Session (S : Type) := {
  SupportingPosts : S -> outcome Page * S;
  PostsFromURL : string -> S -> outcome Page * S;
  Download : string -> S -> GetResult * S;
  setRetries : Z -> S -> S
}.

(** The session of [fanbox/session.go]. *)
Definition fanboxSession
    (parseURL : string -> option string)
    (decodePage : string -> string + Page) : Session SessionClient := {|
  SupportingPosts := Fanbox.SupportingPosts parseURL decodePage;
  PostsFromURL := Fanbox.PostsFromURL parseURL decodePage;
  Download := Fanbox.Download parseURL;
  setRetries := fun n sc => mkSessionClient (HTTPClient sc) n
|}.

(** ** The state of a run *)

(** A download goroutine: the variables its closure captures. *)
Record Task := mkTask { t_dir : Path; t_name : string; t_oURL : string }.

(** What the run does that leaves no mark elsewhere. *)
Inductive Event :=
| CallSupportingPosts
| CallPostsFromURL (url : string)
| Go (t : Task).

Section App.
Context {S : Type} `{Session S}.

(** The k-th value [time.Now().UnixNano()] and [rand.Uint32()] yield. *)
Variable UnixNano : nat -> Z.
Variable Uint32 : nat -> Z.
(** [url.PathEscape]. *)
Variable PathEscape : string -> string.

Record World := mkWorld {
  w_fs : FS;
  w_session : S;
  w_sema : Weighted;
  w_running : list Task;   (* goroutines started and not finished, oldest first *)
  w_ticks : nat;           (* temporary names drawn so far *)
  w_trace : list Event     (* oldest first *)
}.

Definition set_fs (fs : FS) (w : World) : World :=
  mkWorld fs (w_session w) (w_sema w) (w_running w) (w_ticks w) (w_trace w).
Definition set_session (s : S) (w : World) : World :=
  mkWorld (w_fs w) s (w_sema w) (w_running w) (w_ticks w) (w_trace w).
Definition set_sema (s : Weighted) (w : World) : World :=
  mkWorld (w_fs w) (w_session w) s (w_running w) (w_ticks w) (w_trace w).
Definition set_running (l : list Task) (w : World) : World :=
  mkWorld (w_fs w) (w_session w) (w_sema w) l (w_ticks w) (w_trace w).
Definition set_ticks (n : nat) (w : World) : World :=
  mkWorld (w_fs w) (w_session w) (w_sema w) (w_running w) n (w_trace w).
Definition emit (e : Event) (w : World) : World :=
  mkWorld (w_fs w) (w_session w) (w_sema w) (w_running w) (w_ticks w)
    (w_trace w ++ [e]).

(** How a piece of the program ends: it returns, it waits for ever, or it
    panics. *)
Inductive Run (A : Type) :=
| Done (a : A) (w : World)
| Stuck (w : World)
| Panic (w : World).
Arguments Done {A} a w.
Arguments Stuck {A} w.
Arguments Panic {A} w.

Definition M (A : Type) : Type := World -> Run A.

Definition ret {A} (a : A) : M A := fun w => Done a w.

Definition bind {A B} (m : M A) (k : A -> M B) : M B :=
  fun w =>
    match m w with
    | Done a w' => k a w'
    | Stuck w' => Stuck w'
    | Panic w' => Panic w'
    end.

Notation "x <- c1 ;; c2" := (bind c1 (fun x => c2))
  (at level 100, c1 at next level, right associativity).
Notation "c1 ;; c2" := (bind c1 (fun _ => c2))
  (at level 100, right associativity).

Definition panic {A} : M A := fun w => Panic w.

(** A call into the operating system. *)
Definition sys {A} (f : FS -> A * FS) : M A :=
  fun w => let '(a, fs) := f (w_fs w) in Done a (set_fs fs w).

Definition stat (p : Path) : M (option errno) :=
  sys (fun fs => (Stat fs p, fs)).

Definition tmpFilename : M string :=
  fun w =>
    Done (tmpFilenameOf (UnixNano (w_ticks w)) (Uint32 (w_ticks w)))
      (set_ticks (Datatypes.S (w_ticks w)) w).

Definition downloadFile (dir : Path) (file : string) (r : ReadCloser)
    : M (option error) :=
  let dst := JoinDir dir file in
  name <- tmpFilename ;;
  let tmp := JoinDir dir name in
  sys (writeTmp dst tmp r).

Definition writeText (dir : Path) (file text : string) : M (option error) :=
  let dst := JoinDir dir file in
  name <- tmpFilename ;;
  let tmp := JoinDir dir name in
  err <- stat (JoinDir dir file) ;;
  match err with
  | None => ret None
  | Some _ => sys (writeTmp dst tmp (NewReader text))
  end.

(** [c.sema.Release(1)]: it panics when more is released than is held. *)
Definition Release : M unit :=
  fun w =>
    let s := mkWeighted (size (w_sema w)) (cur (w_sema w) - 1) in
    if cur s <? 0 then
      (* panic("semaphore: released more than held") *)
      Panic (set_sema s w)
    else Done tt (set_sema s w).

Definition callDownload (url : string) : M GetResult :=
  fun w =>
    let '(r, s) := Download url (w_session w) in Done r (set_session s w).

(** The body of the goroutine [downloadPage] starts.  The deferred
    [Release] runs on every way out. *)
Definition goroutine (t : Task) : M unit :=
  r <- callDownload (t_oURL t) ;;
  match got_err r with
  | Some _ =>
      (* log.Println("failed to download image:", err) *)
      Release
  | None =>
      match got_body r with
      | None =>
          (* defer r.Close() on a nil interface *)
          Release ;; panic
      | Some body =>
          _ <- downloadFile (t_dir t) (t_name t) body ;;
          (* log.Println("failed to write image file:", err) if it failed;
             then the deferred r.Close() *)
          Release
      end
  end.

(** [c.sema.Acquire(context.Background(), 1)] by the main goroutine, the
    only one that acquires.  It takes a free slot at once; it waits for
    ever for a weight above the size; otherwise it waits for a release,
    and the goroutines run only then, oldest first.  [waiting] are the
    goroutines that may still release. *)
Fixpoint acquireFrom (waiting : list Task) : M unit :=
  fun w =>
    let s := w_sema w in
    if 1 <=? size s - cur s then
      Done tt (set_sema (mkWeighted (size s) (cur s + 1)) w)
    else if size s <? 1 then Stuck w
    else
      match waiting with
      | [] => Stuck w
      | t :: ts =>
          (goroutine t ;; acquireFrom ts) (set_running ts w)
      end.

Definition Acquire : M unit := fun w => acquireFrom (w_running w) w.

(** The [go] statement. *)
Definition go (t : Task) : M unit :=
  fun w => Done tt (emit (Go t) (set_running (w_running w ++ [t]) w)).

(** [ItemBase.URL]. *)
Definition ItemBase_URL (i : ItemBase) : string :=
  (OriginURL ++ "/@" ++ PathEscape (CreatorID i) ++ "/posts/" ++ ID i)%string.

(** [time.Time.Format("2006-01-02")]: the year on four digits at least,
    month and day on two. *)
Definition pad0 (width : nat) (s : string) : string :=
  (String.concat "" (repeat "0" (width - String.length s)) ++ s)%string.

Definition appendInt (x : Z) (width : nat) : string :=
  ((if (x <? 0)%Z then "-" else "") ++ pad0 width (pretty (Z.abs_N x)))%string.

Definition Format_2006_01_02 (t : DateTime) : string :=
  (appendInt (dt_year t) 4 ++ "-" ++ appendInt (dt_month t) 2 ++ "-" ++
   appendInt (dt_day t) 2)%string.

(** The attachment URLs of an item and its text; [None] stands for the
    [default] case of the type switch. *)
Definition itemURLs (c : Config) (item : Item)
    : option (list string * string) :=
  match Body item with
  | BodyImage body =>
      Some (map OriginalURL (Images body), ImageText body)
  | BodyFile body =>
      Some (map FileURL
              (filter (fun file => Include (AllowFileExts c) (FileExtension file))
                 (Files body)),
            FileText body)
  | _ => None
  end.

Definition itemDir (c : Config) (item : Item) : Path :=
  Join [DestDir c;
        sanitizePath (CreatorID (base item));
        (Format_2006_01_02 (PublishedDateTime (base item)) ++ ": " ++
         sanitizePath (Title (base item)))%string].

(** The loop over the URLs of one item; the result is [fetchedItems]. *)
Fixpoint downloadURLs (dir : Path) (urls : list string) (fetchedItems : Z)
    : M Z :=
  match urls with
  | [] => ret fetchedItems
  | url :: urls' =>
      let oURL := url in
      let name := Base oURL in
      err <- stat (JoinDir dir name) ;;
      match err with
      | None => downloadURLs dir urls' (fetchedItems + 1)
      | Some _ =>
          Acquire ;;
          go (mkTask dir name oURL) ;;
          downloadURLs dir urls' fetchedItems
      end
  end.

(** The loop over the items of a page; [lastFetched] is the named result
    as the iterations so far left it. *)
Fixpoint downloadItems (c : Config) (items : list Item) (lastFetched : bool)
    : M (bool * option error) :=
  match items with
  | [] => ret (lastFetched, None)
  | item :: items' =>
      match itemURLs c item with
      | None => downloadItems c items' lastFetched
      | Some (urls, text) =>
          if (Z.of_nat (length urls) =? 0) then
            downloadItems c items' lastFetched
          else
            let dir := itemDir c item in
            err <- sys (MkdirAll dir) ;;
            match err with
            | Some e => ret (false, Some (ErrMkdir e))
            | None =>
                fetchedItems <- downloadURLs dir urls 0 ;;
                let text :=
                  (ItemBase_URL (base item) ++ String (ascii_of_nat 10)
                     (String (ascii_of_nat 10) text))%string in
                (* a failure is logged only *)
                _ <- writeText dir "info" text ;;
                downloadItems c items'
                  (fetchedItems =? Z.of_nat (length urls))
            end
      end
  end.

Definition downloadPage (c : Config) (page : Page)
    : M (bool * option error) :=
  downloadItems c (Items (PBody page)) false.

Definition callSupportingPosts : M (outcome Page) :=
  fun w =>
    let '(r, s) := SupportingPosts (w_session w) in
    Done r (set_session s (emit CallSupportingPosts w)).

Definition callPostsFromURL (url : string) : M (outcome Page) :=
  fun w =>
    let '(r, s) := PostsFromURL url (w_session w) in
    Done r (set_session s (emit (CallPostsFromURL url) w)).

(** [PageLoop] with [n] more iterations before [page < c.MaxPageBehind]
    fails.  The first step is the [switch]: the page it obtained, or
    [None] for [break PageLoop]. *)
Fixpoint pollLoop (c : Config) (n : nat) (fetchAll : bool) (page : Z)
    (lastPage : option Page) : M (option error) :=
  match n with
  | O => ret None
  | Datatypes.S n' =>
      got <-
        (if page =? 0 then
           r <- callSupportingPosts ;; ret (Some r)
         else
           match lastPage with
           | None => panic
           | Some lp =>
               if negb (String.eqb (NextURL (PBody lp)) "") then
                 r <- callPostsFromURL (NextURL (PBody lp)) ;; ret (Some r)
               else ret None
           end) ;;
      match got with
      | None => ret None
      | Some Panicked => panic
      | Some (Failed e) => ret (Some (ErrGetPage page e))
      | Some (Value lp) =>
          res <- downloadPage c lp ;;
          match snd res with
          | Some e => ret (Some (ErrDownloadPage page e))
          | None =>
              if negb fetchAll && fst res then ret None
              else pollLoop c n' fetchAll (page + 1) (Some lp)
          end
      end
  end.

Definition poll (c : Config) (fetchAll : bool) : M (option error) :=
  pollLoop c (Z.to_nat (MaxPageBehind c)) fetchAll 0 None.

(** The [app] value [main] builds, on the file system and the session it
    found. *)
Definition newApp (c : Config) (fs : FS) (session : S) : World :=
  mkWorld fs (setRetries (MaxRetries c) session)
    (NewWeighted (MaxRetries c)) [] 0 [].

(** [main] up to the [ticks]-th tick of [time.Tick]: the error of the
    initial poll is fatal, those of the periodic polls are logged. *)
Fixpoint periodic (c : Config) (ticks : nat) : M unit :=
  match ticks with
  | O => ret tt
  | Datatypes.S k => _ <- poll c false ;; periodic c k
  end.

Definition main (c : Config) (ticks : nat) : M (option error) :=
  err <- poll c true ;;
  match err with
  | Some e => ret (Some e)
  | None => periodic c ticks ;; ret None
  end.

End App.

Arguments Done {S A} a w.
Arguments Stuck {S A} w.
Arguments Panic {S A} w.

(** ** CommaWords.UnmarshalText *)

(** [bytes.Split(text, sep)] for a separator of one byte. *)
Fixpoint splitByte (sep : ascii) (s : string) : list string :=
  match s with
  | EmptyString => [EmptyString]
  | String c s' =>
      if Ascii.eqb c sep then EmptyString :: splitByte sep s'
      else match splitByte sep s' with
           | x :: xs => String c x :: xs
           | [] => [String c EmptyString]
           end
  end.

Definition comma : ascii := ","%char.

Section Words.
(** [bytes.TrimSpace]. *)
Variable TrimSpace : string -> string.

(** The receiver after the call, and the error, which is always nil. *)
Definition UnmarshalText (w : CommaWords) (text : string)
    : CommaWords * option string :=
  let words := splitByte comma text in
  (fold_left (fun w word => (w ++ [TrimSpace word])%list) words w, None).
End Words.

End Main.

(* ===================================================================== *)
(** * Vocabulary of the specification *)
(* ===================================================================== *)

Module Spec.
Import Fanbox Main.

(** An attempt fails: a transport error, or a status outside 2xx. *)
Definition attemptFails (res : DoResult) : bool :=
  match res with
  | DoErr _ => true
  | DoOk r => (StatusCode r <? 200) || (StatusCode r >? 299)
  end.

(** The error [get] is left with by an attempt that failed. *)
Definition attemptError (res : DoResult) : Fanbox.error :=
  match res with
  | DoErr e => ErrDoRequest e
  | DoOk r =>
      match ReadAll (RespBody r) with
      | (_, Some _, _) => ErrStatus (StatusCode r)
      | (b, None, _) => ErrStatusBody (StatusCode r) b
      end
  end.

(** The requests the retry loop hands out when it runs [n] times from the
    [k]-th request of the client on: each is the one before it with the
    cookies the jar holds at that moment added. *)
Fixpoint requestsFrom (jar : nat -> string -> list string) (k n : nat)
    (r : Request) : list Request :=
  match n with
  | O => []
  | S n' =>
      let r' := AddCookies (jar k (URL r)) r in
      r' :: requestsFrom jar (S k) n' r'
  end.

(** What [Request.AddCookie] leaves in the Cookie header: the value that
    was there and the cookie, with "; " between them when there was one. *)
Definition joinCookie (old c : string) : string :=
  if String.eqb old "" then c else (old ++ "; " ++ c)%string.

(** The error carries a status code and a body. *)
Definition carriesStatusAndBody (e : option Fanbox.error) : bool :=
  match e with
  | Some (ErrStatusBody _ _) => true
  | _ => false
  end.

(** The type tag is one of the recognized variants. *)
Definition recognized (t : ItemType) : bool :=
  String.eqb t ItemTypeArticle || String.eqb t ItemTypeImage ||
  String.eqb t ItemTypeFile.

(** What [sanitizePath] does to one byte. *)
Definition sanitizeByte (c : ascii) : string :=
  if Ascii.eqb c slash then slashReplacement
  else if Ascii.eqb c NUL then EmptyString
  else String c EmptyString.

(** The byte occurs in the string. *)
Fixpoint occurs (c : ascii) (s : string) : bool :=
  match s with
  | EmptyString => false
  | String c' s' => Ascii.eqb c c' || occurs c s'
  end.

(** How often the byte occurs in the string. *)
Fixpoint occurrences (c : ascii) (s : string) : nat :=
  match s with
  | EmptyString => O
  | String c' s' =>
      if Ascii.eqb c c' then Datatypes.S (occurrences c s')
      else occurrences c s'
  end.

(** The URLs [downloadPage] collects for an item, none for an item it
    passes over. *)
Definition urlsOf (c : Config) (item : Item) : list string :=
  match itemURLs c item with
  | Some (urls, _) => urls
  | None => []
  end.

(** [downloadPage] goes past the item without touching anything. *)
Definition passedOver (c : Config) (item : Item) : bool :=
  match urlsOf c item with [] => true | _ => false end.

Definition present (fs : FS) (p : Path) : bool :=
  match Stat fs p with None => true | Some _ => false end.

(** Every attachment file of the item is on disk. *)
Definition itemComplete (c : Config) (fs : FS) (item : Item) : bool :=
  forallb (fun url => present fs (JoinDir (itemDir c item) (Base url)))
    (urlsOf c item).

(** The item's directory, its attachment files and its info file are all
    on disk. *)
Definition itemSynced (c : Config) (fs : FS) (item : Item) : bool :=
  passedOver c item ||
  (isDir fs (itemDir c item) && itemComplete c fs item &&
   present fs (JoinDir (itemDir c item) "info")).

Definition pageSynced (c : Config) (fs : FS) (page : Page) : bool :=
  forallb (itemSynced c fs) (Items (PBody page)).

(** The listing fetches among the events of a run. *)
Definition isListingFetch (e : Event) : bool :=
  match e with
  | CallSupportingPosts | CallPostsFromURL _ => true
  | Go _ => false
  end.

Definition listingFetches (l : list Event) : list Event :=
  filter (fun e => isListingFetch e = true) l.

Definition dispatched (l : list Event) : list Event :=
  filter (fun e => isListingFetch e = false) l.

Section Outcome.
Context {S : Type} {A : Type}.

Definition returned (r : Run (S:=S) A) : option A :=
  match r with Done a _ => Some a | _ => None end.

Definition worldOf (r : Run (S:=S) A) : World (S:=S) :=
  match r with Done _ w | Stuck w | Panic w => w end.
End Outcome.

Section Invariants.
Context {S : Type} `{Session S}.

(** Every goroutine that runs holds one slot of the semaphore, and the
    semaphore has a slot to give. *)
Definition slotsHeld (w : World (S:=S)) : Prop :=
  1 <= size (w_sema w) /\
  cur (w_sema w) = Z.of_nat (length (w_running w)) /\
  cur (w_sema w) <= size (w_sema w).

(** [Download] returns a body whenever it returns no error. *)
Definition bodyOrError : Prop :=
  forall url (s : S),
    got_err (fst (Download url s)) = None ->
    got_body (fst (Download url s)) <> None.

(** On the sessions that are [good], [Download] leaves a good session and
    returns a body whenever it returns no error. *)
Definition downloadsSoundOn (good : S -> Prop) : Prop :=
  forall url (s : S),
    good s ->
    good (snd (Download url s)) /\
    (got_err (fst (Download url s)) = None ->
     got_body (fst (Download url s)) <> None).

(** The world is ready for downloads: the slots are in order and the
    session is a good one. *)
Definition ready (good : S -> Prop) (w : World (S:=S)) : Prop :=
  slotsHeld w /\ good (w_session w).

(** The temporary path the next write into [dir] uses. *)
Definition nextTmp (UnixNano Uint32 : nat -> Z) (dir : Path)
    (w : World (S:=S)) : Path :=
  JoinDir dir (tmpFilenameOf (UnixNano (w_ticks w)) (Uint32 (w_ticks w))).

(** The piece of program [m] fetches no listing, however it ends. *)
Definition fetchesNoListing {A} (m : M (S:=S) A) : Prop :=
  forall w,
    listingFetches (w_trace (worldOf (m w))) = listingFetches (w_trace w).
End Invariants.

End Spec.

(* ===================================================================== *)
(** * A scripted session and sample data *)
(* ===================================================================== *)

Module Sample.
Import Fanbox Main Spec.

(** A session that answers from a script and keeps no state. *)
Record Scripted := mkScripted {
  supporting : outcome Page;
  listing : string -> outcome Page;
  file : string -> GetResult
}.

#[global] Instance scriptedSession : Session Scripted := {
  SupportingPosts := fun s => (supporting s, s);
  PostsFromURL := fun url s => (listing s url, s);
  Download := fun url s => (file s url, s);
  setRetries := fun _ s => s
}.

Definition nobody : User := mkUser "" "" "".
Definition day : DateTime := mkDateTime 2021 3 4.

Definition itemBase (ty title : string) : ItemBase :=
  mkItemBase "42" title ty "" 0 day day "" false 0 0 nobody "cre/ator"
    false "".

Definition image (url : string) : Image := mkImage "" "" 0 0 url "".

(** An image item with two images, an image item with none, an article and
    an item of a type the program does not know. *)
Definition twoImages : Item :=
  mkItem (itemBase "image" "A")
    (BodyImage (mkImageBody "txt"
       [image "https://x/a.png"; image "https://x/b.png"])).

Definition noImages : Item :=
  mkItem (itemBase "image" "B") (BodyImage (mkImageBody "txt" [])).

Definition oneImage : Item :=
  mkItem (itemBase "image" "C")
    (BodyImage (mkImageBody "txt" [image "https://x/c.png"])).

Definition unknown : Item := mkItem (itemBase "video" "V") BodyNil.

(** A file item whose only file has an extension that is not allowed. *)
Definition zipOnly : Item :=
  mkItem (itemBase "file" "Z")
    (BodyFile (mkFileBody [mkFile "zip" "1" "a" 10 "https://x/a.zip"] "txt")).

Definition pageOf (items : list Item) : Page := mkPage (mkPageBody items "").

(** One parallel download allowed, four retries, two pages. *)
Definition config : Config :=
  mkConfig "sid" "." 1 4 2 300 ["gif"; "mp4"].

Definition served (data : string) : GetResult :=
  mkGetResult (Some (mkBody data None false)) None.

Definition script (page : Page) : Scripted :=
  mkScripted (Value page) (fun _ => Failed (ErrStatus 404))
    (fun url => served url).

Definition nano (k : nat) : Z := 1611111111111111111 + Z.of_nat k.
Definition rnd (k : nat) : Z := Z.of_nat k.
Definition escape (s : string) : string := s.

Definition start (page : Page) : World :=
  newApp config ∅ (script page).

(** A network that answers every request with 200 and the body "ok", one
    that answers 503, and one that cannot be reached. *)
Definition always (res : DoResult) : Client :=
  mkClient (fun _ _ => res) (fun _ _ => []) [].

Definition ok200 : DoResult := DoOk (mkResponse 200 (mkBody "ok" None false)).
Definition busy503 : DoResult :=
  DoOk (mkResponse 503 (mkBody "busy" None false)).
Definition unreachable : DoResult := DoErr "connection refused".

Definition parses (url : string) : option string := None.

(** A [url.Parse] that rejects the URL ":" and accepts every other one. *)
Definition rejects (url : string) : option string :=
  if String.eqb url ":" then Some "missing protocol scheme" else None.

(** The two cookies [fanbox.New] puts into the jar, and a client whose jar
    always holds them. *)
Definition cookies : list string :=
  ["privacy_policy_agreement=2"; "FANBOXSESSID=sid"].

Definition loggedIn (res : DoResult) : Client :=
  mkClient (fun _ _ => res) (fun _ _ => cookies) [].

(** [bytes.TrimSpace] on ASCII text. *)
Definition isSpace (c : ascii) : bool :=
  existsb (fun n => Nat.eqb (nat_of_ascii c) n) [9; 10; 11; 12; 13; 32]%nat.

Fixpoint trimLeft (s : string) : string :=
  match s with
  | String c s' => if isSpace c then trimLeft s' else s
  | EmptyString => EmptyString
  end.

Fixpoint trimRight (s : string) : string :=
  match s with
  | EmptyString => EmptyString
  | String c s' =>
      match trimRight s' with
      | EmptyString => if isSpace c then EmptyString else String c EmptyString
      | t => String c t
      end
  end.

Definition trim (s : string) : string := trimRight (trimLeft s).

(** A disk on which the one image of [oneImage] and its info file are
    already there, and the world of a run that starts on it. *)
Definition onDisk : FS :=
  <[JoinDir (itemDir config oneImage) "info" := NFile "seen"]>
    (<[JoinDir (itemDir config oneImage) "c.png" := NFile "png"]>
       (<[itemDir config oneImage := NDir]>
          (<[parent (itemDir config oneImage) := NDir]> ∅))).

Definition caughtUp : World :=
  mkWorld onDisk (script (pageOf [oneImage])) (NewWeighted 4) [] 0 [].

(** A disk that has the directory of [oneImage] and nothing in it, and the
    world of a run that starts on it. *)
Definition dirOnly : FS :=
  <[itemDir config oneImage := NDir]>
    (<[parent (itemDir config oneImage) := NDir]> ∅).

Definition arrived : World :=
  mkWorld dirOnly (script (pageOf [oneImage])) (NewWeighted 4) [] 0 [].

(** The scripts that answer every download with a body or an error. *)
Definition answering (s : Scripted) : Prop :=
  forall url, got_err (file s url) = None -> got_body (file s url) <> None.

Definition fetchImage : Task :=
  mkTask (itemDir config oneImage) "c.png" "https://x/c.png".




(** The session of [fanbox/session.go] against a server that is busy, in a
    run that has the directory of [oneImage] on disk and one goroutine,
    holding one slot, on its way. *)
Definition busy : SessionClient := mkSessionClient (loggedIn busy503) 0.

Definition underWay : World :=
  mkWorld dirOnly busy (mkWeighted 4 1) [] 0 [].

End Sample.

(* ===================================================================== *)
(** * The retry loop of the session client *)
(* ===================================================================== *)

Import Fanbox Main Spec.

#[local] Arguments Ascii.eqb : simpl never.
#[local] Arguments String.eqb : simpl never.

Section Retrying.
Variable parseURL : string -> option string.

Lemma Do_sent r sc :
  let r' := AddCookies (jar (HTTPClient sc) (length (sent (HTTPClient sc))) (URL r)) r in
  Do r sc =
  (answers (HTTPClient sc) (length (sent (HTTPClient sc))) r', r',
   mkSessionClient
     (mkClient (answers (HTTPClient sc)) (jar (HTTPClient sc))
        (sent (HTTPClient sc) ++ [r']))
     (Retries sc)).
Proof. reflexivity. Qed.

(** Adding cookies leaves the method, the URL and every header but Cookie
    as they are. *)
Lemma AddCookie_keeps c r :
  Method (AddCookie c r) = Method r /\ URL (AddCookie c r) = URL r /\
  forall k, k <> "Cookie" ->
    ReqHeader (AddCookie c r) !! k = ReqHeader r !! k.
Proof.
  unfold AddCookie, Header_Set, Header. cbn [Method URL ReqHeader].
  split; [reflexivity |]. split; [reflexivity |]. intros k Hk.
  destruct (String.eqb _ ""); cbn [ReqHeader]; apply lookup_insert_ne;
    congruence.
Qed.

Lemma AddCookies_keeps cs : forall r,
  Method (AddCookies cs r) = Method r /\ URL (AddCookies cs r) = URL r /\
  forall k, k <> "Cookie" ->
    ReqHeader (AddCookies cs r) !! k = ReqHeader r !! k.
Proof.
  unfold AddCookies.
  induction cs as [| c cs IH]; intros r; cbn [fold_left]; [auto |].
  destruct (IH (AddCookie c r)) as (Hm & Hu & Hh).
  destruct (AddCookie_keeps c r) as (Hm' & Hu' & Hh').
  rewrite Hm, Hu, Hm', Hu'. split; [reflexivity |]. split; [reflexivity |].
  intros k Hk. rewrite Hh, Hh' by exact Hk. reflexivity.
Qed.

Lemma length_requestsFrom j n : forall k r, length (requestsFrom j k n r) = n.
Proof.
  induction n as [| n IH]; intros k r; cbn [requestsFrom length];
    [reflexivity |].
  rewrite IH. reflexivity.
Qed.

Lemma requestsFrom_keep j n : forall k r q,
  In q (requestsFrom j k n r) ->
  Method q = Method r /\ URL q = URL r /\
  forall h, h <> "Cookie" -> ReqHeader q !! h = ReqHeader r !! h.
Proof.
  induction n as [| n IH]; intros k r q; cbn [requestsFrom In]; [intros [] |].
  destruct (AddCookies_keeps (j k (URL r)) r) as (Hm & Hu & Hh).
  intros [<- | Hin]; [auto |].
  destruct (IH _ _ _ Hin) as (Hm' & Hu' & Hh').
  rewrite Hm', Hu', Hm, Hu. split; [reflexivity |]. split; [reflexivity |].
  intros h Hne. rewrite Hh', Hh by exact Hne. reflexivity.
Qed.

Lemma last_cons {A} (l : list A) : forall x d,
  List.last (x :: l) d = List.last l x.
Proof.
  induction l as [| y l IH]; intros x d; [reflexivity |].
  change (List.last (x :: y :: l) d) with (List.last (y :: l) d).
  rewrite !IH. reflexivity.
Qed.

Lemma requestsFrom_snoc j n : forall k r,
  requestsFrom j k (Datatypes.S n) r =
  (requestsFrom j k n r ++
   [List.last (requestsFrom j k (Datatypes.S n) r) r])%list.
Proof.
  induction n as [| n IH]; intros k r; [reflexivity |].
  change (requestsFrom j k (Datatypes.S (Datatypes.S n)) r)
    with (AddCookies (j k (URL r)) r ::
          requestsFrom j (Datatypes.S k) (Datatypes.S n)
            (AddCookies (j k (URL r)) r)).
  rewrite (IH (Datatypes.S k) (AddCookies (j k (URL r)) r)) at 1.
  change (requestsFrom j k (Datatypes.S n) r)
    with (AddCookies (j k (URL r)) r ::
          requestsFrom j (Datatypes.S k) n (AddCookies (j k (URL r)) r)).
  cbn [app]. rewrite last_cons. reflexivity.
Qed.

(** An attempt never leaves the loop: with the condition of the status
    test starting with [true], each iteration ends in [continue]. *)
Lemma getLoop_step n request sc body err :
  exists body',
    getLoop (Datatypes.S n) request sc body err =
    getLoop n (snd (fst (Do request sc))) (snd (Do request sc)) body'
      (Some (attemptError (fst (fst (Do request sc))))).
Proof.
  cbn [getLoop]. destruct (Do request sc) as [[res request1] sc1].
  cbn [fst snd].
  destruct res as [e | r]; cbn [orb attemptError].
  - eexists; reflexivity.
  - destruct (ReadAll (RespBody r)) as [[b rerr] drained].
    destruct rerr; eexists; reflexivity.
Qed.

Lemma getLoop_runs n : forall request sc body err,
  let out := getLoop n request sc body err in
  let reqs :=
    requestsFrom (jar (HTTPClient sc)) (length (sent (HTTPClient sc))) n
      request in
  sent (HTTPClient (snd out)) = (sent (HTTPClient sc) ++ reqs)%list /\
  answers (HTTPClient (snd out)) = answers (HTTPClient sc) /\
  jar (HTTPClient (snd out)) = jar (HTTPClient sc) /\
  Retries (snd out) = Retries sc /\
  got_err (fst out) =
    match n with
    | O => err
    | Datatypes.S k =>
        Some (attemptError
                (answers (HTTPClient sc)
                   (length (sent (HTTPClient sc)) + k)%nat
                   (List.last reqs request)))
    end.
Proof.
  induction n as [| n IH]; intros request sc body err.
  - simpl. rewrite app_nil_r. auto.
  - destruct (getLoop_step n request sc body err) as [body' ->].
    rewrite Do_sent. cbv zeta. cbn [fst snd].
    set (r1 := AddCookies _ request).
    specialize (IH r1
      (mkSessionClient
         (mkClient (answers (HTTPClient sc)) (jar (HTTPClient sc))
            (sent (HTTPClient sc) ++ [r1])) (Retries sc))
      body'
      (Some (attemptError
               (answers (HTTPClient sc) (length (sent (HTTPClient sc))) r1)))).
    cbv zeta in IH. cbn [HTTPClient Retries sent answers jar] in IH.
    destruct IH as (IHs & IHa & IHj & IHr & IHe).
    rewrite IHs, IHa, IHj, IHr, IHe.
    rewrite length_app. cbn [length].
    replace (length (sent (HTTPClient sc)) + 1)%nat
      with (Datatypes.S (length (sent (HTTPClient sc)))) by lia.
    change (requestsFrom (jar (HTTPClient sc)) (length (sent (HTTPClient sc)))
              (Datatypes.S n) request)
      with (r1 :: requestsFrom (jar (HTTPClient sc))
                    (Datatypes.S (length (sent (HTTPClient sc)))) n r1).
    rewrite last_cons.
    repeat split.
    + rewrite <- app_assoc. reflexivity.
    + destruct n as [| k].
      * rewrite Nat.add_0_r. reflexivity.
      * replace (Datatypes.S (length (sent (HTTPClient sc))) + k)%nat
          with (length (sent (HTTPClient sc)) + Datatypes.S k)%nat by lia.
        reflexivity.
Qed.

Lemma attempts_nonneg r : 0 <= r -> attempts r = Datatypes.S (Z.to_nat r).
Proof. intros Hr. unfold attempts. rewrite Z2Nat.inj_add by lia. simpl. lia. Qed.

(** Whatever the network answers, a request that is attempted at all ends
    in an error. *)
Lemma get_never_succeeds url header sc :
  0 <= Retries sc ->
  got_err (fst (get parseURL url header sc)) <> None.
Proof.
  intros Hr. unfold get, NewRequest.
  destruct (parseURL url); [discriminate |].
  rewrite (attempts_nonneg _ Hr).
  pose proof (getLoop_runs (Datatypes.S (Z.to_nat (Retries sc)))
                (setHeaders (mkRequest "GET" url ∅) header) sc None None)
    as (_ & _ & _ & _ & He).
  rewrite He. discriminate.
Qed.

(** [Get] never hands a decoded value back. *)
Lemma Get_never_value {A} (decode : string -> string + A) url sc v :
  fst (Get parseURL decode url sc) <> Value v.
Proof.
  unfold Get.
  destruct (get parseURL url _ sc) as [res sc1] eqn:E.
  destruct (got_err res) eqn:Ee; [discriminate |].
  destruct (got_body res) eqn:Eb; [| discriminate].
  exfalso. revert E. unfold get, NewRequest.
  destruct (parseURL url).
  - intros [= <- <-]. discriminate.
  - intros E.
    pose proof (getLoop_runs (attempts (Retries sc))
      (setHeaders (mkRequest "GET" url ∅)
         {[ "Accept" := ["application/json, text/plain, */*"] ]})
      sc None None) as (_ & _ & _ & _ & He).
    rewrite E in He. simpl in He.
    destruct (attempts (Retries sc)) eqn:En.
    + simpl in E. injection E as <- <-. discriminate.
    + congruence.
Qed.
End Retrying.

Section RetryBound.
Variable parseURL : string -> option string.

(** C7, amended.  For every retry count R >= 0, a fetch of a URL that
    [http.NewRequest] accepts, against an endpoint whose every attempt
    fails, hands a GET of that URL to the client exactly R + 1 times and
    then returns the error of the last attempt: the status code and the
    body when that attempt got a response whose body could be read, the
    status code alone when reading the body failed, and the wrapped
    transport error when the request itself failed. *)
Theorem get_retry_bound url header sc :
  parseURL url = None ->
  0 <= Retries sc ->
  (forall k request,
      attemptFails (answers (HTTPClient sc) k request) = true) ->
  let out := get parseURL url header sc in
  exists earlier final,
    sent (HTTPClient (snd out)) =
      (sent (HTTPClient sc) ++ earlier ++ [final])%list /\
    Z.of_nat (length (earlier ++ [final])) = Retries sc + 1 /\
    (forall r, In r (earlier ++ [final]) ->
       Method r = "GET" /\ URL r = url) /\
    let last :=
      answers (HTTPClient sc)
        (length (sent (HTTPClient sc) ++ earlier)) final in
    got_err (fst out) = Some (attemptError last) /\
    (forall code data,
        last = DoOk (mkResponse code (mkBody data None false)) ->
        got_err (fst out) = Some (ErrStatusBody code data)) /\
    (forall code data cause,
        last = DoOk (mkResponse code (mkBody data (Some cause) false)) ->
        got_err (fst out) = Some (ErrStatus code)) /\
    (forall cause,
        last = DoErr cause -> got_err (fst out) = Some (ErrDoRequest cause)).
Proof.
  intros Hp Hr _ out. subst out.
  unfold get, NewRequest. rewrite Hp. rewrite (attempts_nonneg _ Hr).
  set (request := setHeaders (mkRequest "GET" url ∅) header).
  set (n := Z.to_nat (Retries sc)).
  pose proof (getLoop_runs (Datatypes.S n) request sc None None)
    as (Hs & _ & _ & _ & He).
  cbv zeta in Hs, He.
  set (reqs := requestsFrom (jar (HTTPClient sc))
                 (length (sent (HTTPClient sc))) (Datatypes.S n) request)
    in Hs, He.
  exists (requestsFrom (jar (HTTPClient sc))
            (length (sent (HTTPClient sc))) n request),
         (List.last reqs request).
  assert (Hsnoc : reqs =
            (requestsFrom (jar (HTTPClient sc))
               (length (sent (HTTPClient sc))) n request ++
             [List.last reqs request])%list)
    by apply requestsFrom_snoc.
  rewrite <- Hsnoc.
  split; [exact Hs |].
  split; [unfold reqs; rewrite length_requestsFrom; subst n; lia |].
  split.
  { intros r Hin. unfold reqs in Hin.
    destruct (requestsFrom_keep _ _ _ _ _ Hin) as (Hm & Hu & _).
    rewrite Hm, Hu. split; reflexivity. }
  cbv zeta. rewrite length_app, length_requestsFrom. rewrite He.
  split; [reflexivity |].
  repeat split; intros; f_equal.
  - rewrite H. reflexivity.
  - rewrite H. reflexivity.
  - rewrite H. reflexivity.
Qed.
End RetryBound.

Lemma get_retry_bound_witness :
  exists earlier final,
    sent (HTTPClient (snd (get Sample.parses "https://api.fanbox.cc/x" ∅
                             (mkSessionClient (Sample.loggedIn Sample.busy503) 4))))
    = ([] ++ earlier ++ [final])%list /\
    Z.of_nat (length (earlier ++ [final])) = 4 + 1 /\
    got_err (fst (get Sample.parses "https://api.fanbox.cc/x" ∅
                    (mkSessionClient (Sample.loggedIn Sample.busy503) 4)))
    = Some (ErrStatusBody 503 "busy").
Proof.
  destruct (get_retry_bound Sample.parses "https://api.fanbox.cc/x" ∅
              (mkSessionClient (Sample.loggedIn Sample.busy503) 4)
              eq_refl ltac:(simpl; lia) (fun _ _ => eq_refl))
    as (earlier & final & Hs & Hl & _ & He & _).
  exists earlier, final.
  split; [exact Hs |]. split; [exact Hl | exact He].
Defined.

(** C7 as stated fails.  Against a network that cannot be reached every
    attempt fails, and the error returned after the last one carries no
    status code and no body.  And for a URL that [http.NewRequest] rejects,
    no attempt is made at all, whatever the retry count. *)
Lemma get_retry_claim_fails :
  (forall k request,
      attemptFails
        (answers (HTTPClient (mkSessionClient (Sample.always Sample.unreachable) 0))
           k request) = true) /\
  got_err (fst (get Sample.parses "https://api.fanbox.cc/x" ∅
                  (mkSessionClient (Sample.always Sample.unreachable) 0)))
  = Some (ErrDoRequest "connection refused") /\
  carriesStatusAndBody
    (got_err (fst (get Sample.parses "https://api.fanbox.cc/x" ∅
                     (mkSessionClient (Sample.always Sample.unreachable) 0))))
  = false /\
  sent (HTTPClient (snd (get Sample.rejects ":" ∅
                           (mkSessionClient (Sample.always Sample.busy503) 2))))
  = [] /\
  got_err (fst (get Sample.rejects ":" ∅
                  (mkSessionClient (Sample.always Sample.busy503) 2)))
  = Some (ErrCreateRequest "missing protocol scheme").
Proof. split; [intros; reflexivity | repeat split; reflexivity]. Qed.

(** C2 fails on the code.  Against a network that answers every request
    with status 200 and the body "ok", [Download] with two retries hands
    the request to the client three times and returns an error, and the body
    it returns has been read to its end and closed; [Get] returns the same
    error and decodes nothing. *)
Theorem get_status_200_is_retried_and_fails :
  got_err (fst (Fanbox.Download Sample.parses "https://api.fanbox.cc/x"
                  (mkSessionClient (Sample.always Sample.ok200) 2)))
  = Some (ErrStatusBody 200 "ok") /\
  got_body (fst (Fanbox.Download Sample.parses "https://api.fanbox.cc/x"
                   (mkSessionClient (Sample.always Sample.ok200) 2)))
  = Some (mkBody "" None true) /\
  length (sent (HTTPClient (snd (Fanbox.Download Sample.parses "https://api.fanbox.cc/x"
                                   (mkSessionClient (Sample.always Sample.ok200) 2)))))
  = 3%nat /\
  fst (Get Sample.parses (fun b => inr b) "https://api.fanbox.cc/x"
         (mkSessionClient (Sample.always Sample.ok200) 2))
  = Failed (ErrStatusBody 200 "ok").
Proof. repeat split; reflexivity. Qed.

(* ===================================================================== *)
(** * sanitizePath *)
(* ===================================================================== *)

Section Sanitizing.
Lemma occurs_append c a b :
  occurs c (a ++ b)%string = occurs c a || occurs c b.
Proof.
  induction a as [| x a IH]; [reflexivity |].
  change (occurs c (String x (a ++ b)%string)
          = occurs c (String x a) || occurs c b).
  cbn [occurs]. rewrite IH. apply orb_assoc.
Qed.

Lemma concat_cons x l :
  String.concat "" (x :: l) = (x ++ String.concat "" l)%string.
Proof.
  destruct l; [| reflexivity]. cbn [String.concat].
  induction x as [| a x IH]; [reflexivity |].
  change (String a x = String a (x ++ "")%string). congruence.
Qed.

Lemma replacement_sanitizer c :
  match replacement sanitizer c with
  | Some new => new
  | None => String c EmptyString
  end = sanitizeByte c.
Proof.
  unfold sanitizeByte, sanitizer. cbn [replacement].
  rewrite (Ascii.eqb_sym slash c), (Ascii.eqb_sym NUL c).
  destruct (Ascii.eqb c slash); [reflexivity |].
  destruct (Ascii.eqb c NUL); reflexivity.
Qed.

Lemma sanitizePath_cons c s :
  sanitizePath (String c s) = (sanitizeByte c ++ sanitizePath s)%string.
Proof.
  unfold sanitizePath. cbn [Replace].
  rewrite <- replacement_sanitizer.
  destruct (replacement sanitizer c); reflexivity.
Qed.

Lemma sanitizeByte_clean c :
  occurs slash (sanitizeByte c) = false /\ occurs NUL (sanitizeByte c) = false.
Proof.
  unfold sanitizeByte.
  destruct (Ascii.eqb c slash) eqn:E1; [split; reflexivity |].
  destruct (Ascii.eqb c NUL) eqn:E2; [split; reflexivity |].
  cbn [occurs]. rewrite !orb_false_r, (Ascii.eqb_sym slash c), (Ascii.eqb_sym NUL c).
  auto.
Qed.

Lemma splitSlash_one s : occurs slash s = false -> splitSlash s = [s].
Proof.
  induction s as [| c s IH]; simpl; [reflexivity |].
  intros Ho. apply orb_false_iff in Ho as [Hc Hs].
  rewrite Ascii.eqb_sym, Hc, (IH Hs). reflexivity.
Qed.

Lemma cleanOnto_one rooted out e :
  (length (cleanOnto rooted out [e]) <= Datatypes.S (length out))%nat.
Proof.
  simpl.
  destruct (String.eqb e "" || String.eqb e ".");
    [rewrite length_rev; lia |].
  destruct (String.eqb e "..").
  - destruct out as [| top out']; simpl.
    + destruct rooted; simpl; lia.
    + destruct (String.eqb top ".."); simpl;
        rewrite ?length_app, ?length_rev; simpl; lia.
  - simpl. rewrite length_app, length_rev. simpl. lia.
Qed.

(** C8, amended.  [sanitizePath] replaces every '/' of its input by the
    fixed string [slashReplacement] (several bytes, none of them a
    separator or a null byte), removes every null byte and keeps every
    other byte; the result holds no separator and no null byte, is a single
    element for [filepath.Join], and joined onto a directory it lies at
    most one level below it. *)
Theorem sanitizePath_single_component s :
  sanitizePath s =
    String.concat "" (map sanitizeByte (list_ascii_of_string s)) /\
  occurs slash (sanitizePath s) = false /\
  occurs NUL (sanitizePath s) = false /\
  splitSlash (sanitizePath s) = [sanitizePath s] /\
  (forall dir : Path,
      length (snd (JoinDir dir (sanitizePath s)))
      <= Datatypes.S (length (snd dir)))%nat.
Proof.
  assert (Hc : occurs slash (sanitizePath s) = false /\
               occurs NUL (sanitizePath s) = false).
  { induction s as [| c s [IH1 IH2]]; [split; reflexivity |].
    rewrite sanitizePath_cons, !occurs_append, IH1, IH2.
    destruct (sanitizeByte_clean c) as [-> ->]. auto. }
  destruct Hc as [Hs Hn].
  split; [| split; [exact Hs | split; [exact Hn | split]]].
  - induction s as [| c s IH]; [reflexivity |].
    rewrite sanitizePath_cons. cbn [list_ascii_of_string map].
    rewrite concat_cons. f_equal. apply IH.
    + revert Hs. rewrite sanitizePath_cons, occurs_append.
      intros Ho. apply orb_false_iff in Ho. tauto.
    + revert Hn. rewrite sanitizePath_cons, occurs_append.
      intros Ho. apply orb_false_iff in Ho. tauto.
  - apply splitSlash_one, Hs.
  - intros dir. unfold JoinDir. cbn [snd].
    rewrite (splitSlash_one _ Hs).
    etransitivity; [apply cleanOnto_one |].
    rewrite length_rev. lia.
Qed.
End Sanitizing.

(** C8 as stated fails: the separator is not replaced by a single
    character, but by the nine bytes of [slashReplacement]. *)
Lemma sanitizePath_slash_not_one_character :
  sanitizePath "/" = slashReplacement /\
  String.length (sanitizePath "a/b") = 11%nat /\
  ~ (exists c : ascii,
        sanitizePath "a/b" = String "a" (String c (String "b" EmptyString))).
Proof.
  split; [reflexivity | split; [reflexivity |]].
  intros [c Hc]. apply (f_equal String.length) in Hc. discriminate.
Qed.

(* ===================================================================== *)
(** * The atomic write protocol *)
(* ===================================================================== *)

Section Atomic.
Lemma Create_cases p fs :
  (exists e, Create p fs = (Some e, fs)) \/
  Create p fs = (None, <[p := NFile ""]> fs).
Proof.
  unfold Create.
  destruct (lstat fs p) as [[c |] |];
    destruct (lstat fs (parent p)) as [[c' |] |]; eauto.
Qed.

Lemma Rename_cases old new fs :
  (exists e, Rename old new fs = (Some e, fs)) \/
  (exists c, fs !! old = Some (NFile c) /\
             Rename old new fs = (None, <[new := NFile c]> (delete old fs))).
Proof.
  unfold Rename.
  destruct (fs !! old) as [[c |] |]; eauto.
  destruct (lstat fs new) as [[c' |] |];
    destruct (lstat fs (parent new)) as [[c'' |] |]; eauto.
Qed.

Lemma Copy_created p r fs :
  Copy p r (<[p := NFile ""]> fs) =
  (snd (fst (ReadAll r)), <[p := NFile (fst (fst (ReadAll r)))]> fs).
Proof.
  unfold Copy. destruct (ReadAll r) as [[b rerr] rest].
  rewrite lookup_insert_eq, insert_insert_eq. reflexivity.
Qed.

Lemma Remove_file p c fs :
  fs !! p = Some (NFile c) -> Remove p fs = (None, delete p fs).
Proof. unfold Remove. intros ->. reflexivity. Qed.

(** The four ways [writeTmp] ends, with the file system each leaves. *)
Lemma writeTmp_cases dst tmp r fs :
  let data := fst (fst (ReadAll r)) in
  let rerr := snd (fst (ReadAll r)) in
  (exists e, writeTmp dst tmp r fs = (Some (ErrCreateTmp e), fs)) \/
  (exists e, rerr = Some e /\
     writeTmp dst tmp r fs = (Some (ErrCopyTmp e), delete tmp fs)) \/
  (exists e, rerr = None /\
     writeTmp dst tmp r fs =
       (Some (ErrRestoreTmp e), <[tmp := NFile data]> fs)) \/
  (rerr = None /\
     writeTmp dst tmp r fs =
       (None, <[dst := NFile data]> (delete tmp fs))).
Proof.
  cbv zeta. unfold writeTmp.
  destruct (Create_cases tmp fs) as [[e ->] | ->]; [eauto |].
  rewrite Copy_created.
  destruct (snd (fst (ReadAll r))) as [e |] eqn:Ee.
  - right; left. exists e. split; [reflexivity |].
    rewrite (Remove_file tmp (fst (fst (ReadAll r))))
      by apply lookup_insert_eq.
    cbn [snd]. rewrite delete_insert_eq. reflexivity.
  - destruct (Rename_cases tmp dst (<[tmp := NFile (fst (fst (ReadAll r)))]> fs))
      as [[e ->] | (c & Hc & ->)].
    + right; right; left. eauto.
    + right; right; right. split; [reflexivity |].
      rewrite lookup_insert_eq in Hc. injection Hc as <-.
      rewrite delete_insert_eq. reflexivity.
Qed.

Lemma ReadAll_ok r :
  snd (fst (ReadAll r)) = None ->
  rc_err r = None /\ rc_closed r = false /\ fst (fst (ReadAll r)) = rc_data r.
Proof. unfold ReadAll. destruct (rc_closed r); [discriminate | auto]. Qed.

(** C6.  A write through [writeTmp] to a temporary path other than the
    destination.  When the temporary file has been created and copying the
    body into it fails, [writeTmp] returns "failed to download image to tmp
    file", the temporary file is gone afterwards and what is at the
    destination is what was there before.  Whenever [writeTmp] fails, the
    destination is untouched.  When the temporary file has been created,
    the copy has run to its end and the rename succeeds, the destination
    holds exactly the bytes of the body and the temporary file is gone.
    And the destination changes in no other way: when it has changed,
    [writeTmp] has succeeded, the body was read to its end without error,
    and the destination holds exactly the bytes of the body, the temporary
    file having been renamed onto it. *)
Theorem writeTmp_atomic dst tmp r fs :
  tmp <> dst ->
  let err := fst (writeTmp dst tmp r fs) in
  let fs' := snd (writeTmp dst tmp r fs) in
  let created := snd (Create tmp fs) in
  let copied := snd (Copy tmp r created) in
  (forall cause,
      fst (Create tmp fs) = None ->
      fst (Copy tmp r created) = Some cause ->
      err = Some (ErrCopyTmp cause) /\
      fs' !! tmp = None /\ fs' !! dst = fs !! dst) /\
  (err <> None -> fs' !! dst = fs !! dst) /\
  (fst (Create tmp fs) = None ->
   fst (Copy tmp r created) = None ->
   fst (Rename tmp dst copied) = None ->
      err = None /\
      fs' !! dst = Some (NFile (rc_data r)) /\ fs' !! tmp = None) /\
  (fs' !! dst <> fs !! dst ->
      err = None /\ rc_err r = None /\ rc_closed r = false /\
      fs' !! dst = Some (NFile (rc_data r)) /\ fs' !! tmp = None).
Proof.
  intros Hne. cbv zeta. unfold writeTmp.
  destruct (Create_cases tmp fs) as [[e ->] | ->]; cbn [fst snd].
  { repeat split; try congruence; discriminate. }
  rewrite Copy_created. cbn [fst snd].
  destruct (snd (fst (ReadAll r))) as [e |] eqn:Ee.
  - rewrite (Remove_file tmp (fst (fst (ReadAll r))))
      by apply lookup_insert_eq.
    cbn [fst snd].
    rewrite delete_insert_eq, lookup_delete_eq,
      (lookup_delete_ne fs tmp dst) by exact Hne.
    repeat split; try congruence; discriminate.
  - destruct (ReadAll_ok r Ee) as (H1 & H2 & ->).
    destruct (Rename_cases tmp dst (<[tmp := NFile (rc_data r)]> fs))
      as [[e ->] | (c & Hc & ->)]; cbn [fst snd].
    + rewrite (lookup_insert_ne fs tmp dst) by exact Hne.
      repeat split; try congruence; discriminate.
    + rewrite lookup_insert_eq in Hc. injection Hc as <-.
      rewrite delete_insert_eq, lookup_insert_eq,
        (lookup_insert_ne _ dst tmp), lookup_delete_eq
        by (intros E; apply Hne; symmetry; exact E).
      repeat split; try congruence; discriminate.
Qed.
End Atomic.

Lemma writeTmp_atomic_witness :
  (fst (writeTmp (false, ["d"; "a.png"]) (false, ["d"; ".tmp.x"])
          (mkBody "half" (Some "reset") false)
          (<[(false, ["d"; "a.png"]) := NFile "old"]>
             {[ (false, ["d"]) := NDir ]}))
   = Some (ErrCopyTmp "reset") /\
   snd (writeTmp (false, ["d"; "a.png"]) (false, ["d"; ".tmp.x"])
          (mkBody "half" (Some "reset") false)
          (<[(false, ["d"; "a.png"]) := NFile "old"]>
             {[ (false, ["d"]) := NDir ]}))
     !! (false, ["d"; ".tmp.x"]) = None /\
   snd (writeTmp (false, ["d"; "a.png"]) (false, ["d"; ".tmp.x"])
          (mkBody "half" (Some "reset") false)
          (<[(false, ["d"; "a.png"]) := NFile "old"]>
             {[ (false, ["d"]) := NDir ]}))
     !! (false, ["d"; "a.png"])
   = (<[(false, ["d"; "a.png"]) := NFile "old"]>
        ({[ (false, ["d"]) := NDir ]} : FS)) !! (false, ["d"; "a.png"])) /\
  (fst (writeTmp (false, ["d"; "a.png"]) (false, ["d"; ".tmp.x"])
          (mkBody "whole" None false)
          (<[(false, ["d"; "a.png"]) := NFile "old"]>
             {[ (false, ["d"]) := NDir ]}))
   = None /\
   snd (writeTmp (false, ["d"; "a.png"]) (false, ["d"; ".tmp.x"])
          (mkBody "whole" None false)
          (<[(false, ["d"; "a.png"]) := NFile "old"]>
             {[ (false, ["d"]) := NDir ]}))
     !! (false, ["d"; "a.png"]) = Some (NFile "whole") /\
   snd (writeTmp (false, ["d"; "a.png"]) (false, ["d"; ".tmp.x"])
          (mkBody "whole" None false)
          (<[(false, ["d"; "a.png"]) := NFile "old"]>
             {[ (false, ["d"]) := NDir ]}))
     !! (false, ["d"; ".tmp.x"]) = None).
Proof.
  assert (Hne : (false, ["d"; ".tmp.x"]) <> ((false, ["d"; "a.png"]) : Path))
    by discriminate.
  split.
  - apply (proj1 (writeTmp_atomic (false, ["d"; "a.png"])
                    (false, ["d"; ".tmp.x"])
                    (mkBody "half" (Some "reset") false)
                    (<[(false, ["d"; "a.png"]) := NFile "old"]>
                       {[ (false, ["d"]) := NDir ]}) Hne) "reset");
      reflexivity.
  - apply (proj1 (proj2 (proj2
             (writeTmp_atomic (false, ["d"; "a.png"])
                (false, ["d"; ".tmp.x"]) (mkBody "whole" None false)
                (<[(false, ["d"; "a.png"]) := NFile "old"]>
                   {[ (false, ["d"]) := NDir ]}) Hne))));
      reflexivity.
Defined.

(* ===================================================================== *)
(** * Running the downloader *)
(* ===================================================================== *)

Section Running.
Context {S : Type} `{Session S}.
Variable UnixNano : nat -> Z.
Variable Uint32 : nat -> Z.
Variable PathEscape : string -> string.

Abbreviation M := (M (S:=S)).
Abbreviation World := (World (S:=S)).
Abbreviation goroutine := (goroutine UnixNano Uint32).
Abbreviation acquireFrom := (acquireFrom UnixNano Uint32).
Abbreviation Acquire := (Acquire UnixNano Uint32).
Abbreviation writeText := (writeText (S:=S) UnixNano Uint32).
Abbreviation downloadFile := (downloadFile (S:=S) UnixNano Uint32).
Abbreviation tmpFilename := (tmpFilename (S:=S) UnixNano Uint32).
Abbreviation downloadURLs := (downloadURLs UnixNano Uint32).
Abbreviation downloadItems := (downloadItems UnixNano Uint32 PathEscape).
Abbreviation downloadPage := (downloadPage UnixNano Uint32 PathEscape).
Abbreviation pollLoop := (pollLoop UnixNano Uint32 PathEscape).
Abbreviation poll := (poll UnixNano Uint32 PathEscape).

Lemma bind_ext {A B} (m : M A) (k1 k2 : A -> M B) w :
  (forall a w', k1 a w' = k2 a w') -> bind m k1 w = bind m k2 w.
Proof. intros Hk. unfold bind. destruct (m w); auto. Qed.

Lemma set_fs_same (w : World) : set_fs (w_fs w) w = w.
Proof. destruct w; reflexivity. Qed.

Lemma stat_run p (w : World) : stat p w = Done (Stat (w_fs w) p) w.
Proof. unfold stat, sys. cbn. rewrite set_fs_same. reflexivity. Qed.

(** ** Items without attachments *)

Lemma downloadItems_passedOver c item items lastFetched w :
  passedOver c item = true ->
  downloadItems c (item :: items) lastFetched w =
  downloadItems c items lastFetched w.
Proof.
  unfold passedOver, urlsOf. cbn [Main.downloadItems].
  destruct (itemURLs c item) as [[urls text] |]; [| reflexivity].
  destruct urls; [reflexivity | discriminate].
Qed.

Lemma downloadItems_skip c item post : forall pre lastFetched w,
  passedOver c item = true ->
  downloadItems c (pre ++ item :: post) lastFetched w =
  downloadItems c (pre ++ post) lastFetched w.
Proof.
  induction pre as [| a pre IH]; intros lastFetched w Hp.
  - apply downloadItems_passedOver, Hp.
  - cbn [app Main.downloadItems].
    destruct (itemURLs c a) as [[urls text] |]; [| apply IH, Hp].
    destruct (Z.of_nat (length urls) =? 0); [apply IH, Hp |].
    apply bind_ext. intros [e |] w1; [reflexivity |].
    apply bind_ext. intros fetched w2.
    apply bind_ext. intros _ w3. apply IH, Hp.
Qed.

Lemma downloadItems_all_passedOver c : forall items lastFetched w,
  forallb (passedOver c) items = true ->
  downloadItems c items lastFetched w = Done (lastFetched, None) w.
Proof.
  induction items as [| a items IH]; intros lastFetched w Hall.
  - reflexivity.
  - cbn [forallb] in Hall. apply andb_true_iff in Hall as [Ha Hall].
    rewrite downloadItems_passedOver by exact Ha. apply IH, Hall.
Qed.

(** ** No page to look at *)

(** C10.  With [MaxPageBehind <= 0], [poll] returns nil and leaves the
    world as it found it, whatever [fetchAll] is: no listing is fetched, no
    download is started, and the file system is the same. *)
Theorem poll_no_pages c fetchAll (w : World) :
  MaxPageBehind c <= 0 ->
  poll c fetchAll w = Done None w.
Proof.
  intros Hm. unfold Main.poll.
  replace (Z.to_nat (MaxPageBehind c)) with O by lia.
  reflexivity.
Qed.

End Running.

Lemma poll_no_pages_witness :
  poll Sample.nano Sample.rnd Sample.escape
    (mkConfig "sid" "." 1 4 0 300 ["gif"; "mp4"]) false
    (Sample.start (Sample.pageOf [Sample.twoImages]))
  = Done None (Sample.start (Sample.pageOf [Sample.twoImages])).
Proof.
  apply (poll_no_pages Sample.nano Sample.rnd Sample.escape
           (mkConfig "sid" "." 1 4 0 300 ["gif"; "mp4"]) false).
  simpl. lia.
Defined.

(* ===================================================================== *)
(** * Items of an unknown type *)
(* ===================================================================== *)

Section UnknownType.
Context {S : Type} `{Session S}.
Variable UnixNano : nat -> Z.
Variable Uint32 : nat -> Z.
Variable PathEscape : string -> string.
Variable unmarshalItemBase : string -> string + ItemBase.
Variable unmarshalArticleBody : string -> string + option ArticleBody.
Variable unmarshalImageBody : string -> string + option ImageBody.
Variable unmarshalFileBody : string -> string + option FileBody.

(** C9.  Decoding an item whose base decodes and whose type tag is none of
    "article", "image" and "file" succeeds and yields the item with a nil
    body; for such an item [downloadPage] collects no URLs, and a page has
    the same outcome and leaves the same world with the item as without it
    (no directory made, no file written, no download started); a page of
    such items only is gone through without any effect. *)
Theorem unknown_type_is_skipped b ib :
  unmarshalItemBase b = inr ib ->
  recognized (Type_ ib) = false ->
  UnmarshalJSON unmarshalItemBase unmarshalArticleBody unmarshalImageBody
    unmarshalFileBody b = inr (mkItem ib BodyNil) /\
  (forall c, itemURLs c (mkItem ib BodyNil) = None) /\
  (forall c pre post next (w : World (S:=S)),
      downloadPage UnixNano Uint32 PathEscape c
        (mkPage (mkPageBody (pre ++ mkItem ib BodyNil :: post) next)) w =
      downloadPage UnixNano Uint32 PathEscape c
        (mkPage (mkPageBody (pre ++ post) next)) w) /\
  (forall c n next (w : World (S:=S)),
      downloadPage UnixNano Uint32 PathEscape c
        (mkPage (mkPageBody (repeat (mkItem ib BodyNil) n) next)) w =
      Done (false, None) w).
Proof.
  intros Hb Hr. unfold recognized in Hr.
  apply orb_false_iff in Hr as [Hr Hf].
  apply orb_false_iff in Hr as [Ha Hi].
  split; [| split; [| split]].
  - unfold UnmarshalJSON. rewrite Hb, Ha, Hi, Hf. reflexivity.
  - reflexivity.
  - intros. unfold downloadPage. cbn [Items PBody].
    apply downloadItems_skip. reflexivity.
  - intros. unfold downloadPage. cbn [Items PBody].
    apply downloadItems_all_passedOver.
    induction n; [reflexivity | assumption].
Qed.

End UnknownType.

Lemma unknown_type_is_skipped_witness :
  UnmarshalJSON (fun _ => inr (Sample.itemBase "video" "V"))
    (fun _ => inl "unused") (fun _ => inl "unused") (fun _ => inl "unused")
    "{}" = inr Sample.unknown /\
  downloadPage Sample.nano Sample.rnd Sample.escape Sample.config
    (Sample.pageOf [Sample.unknown]) (Sample.start (Sample.pageOf []))
  = Done (false, None) (Sample.start (Sample.pageOf [])).
Proof.
  pose proof (unknown_type_is_skipped (S:=Sample.Scripted)
                Sample.nano Sample.rnd Sample.escape
                (fun _ => inr (Sample.itemBase "video" "V"))
                (fun _ => inl "unused") (fun _ => inl "unused")
                (fun _ => inl "unused")
                "{}" (Sample.itemBase "video" "V") eq_refl eq_refl)
    as (Hd & _ & _ & Hp).
  split; [exact Hd |].
  exact (Hp Sample.config 1%nat "" (Sample.start (Sample.pageOf []))).
Defined.

(* ===================================================================== *)
(** * What a page costs in listing fetches *)
(* ===================================================================== *)

Section Listing.
Context {S : Type} `{Session S}.
Variable UnixNano : nat -> Z.
Variable Uint32 : nat -> Z.
Variable PathEscape : string -> string.

Abbreviation M := (M (S:=S)).
Abbreviation World := (World (S:=S)).
Abbreviation goroutine := (goroutine UnixNano Uint32).
Abbreviation acquireFrom := (acquireFrom UnixNano Uint32).
Abbreviation Acquire := (Acquire UnixNano Uint32).
Abbreviation writeText := (writeText (S:=S) UnixNano Uint32).
Abbreviation downloadFile := (downloadFile (S:=S) UnixNano Uint32).
Abbreviation tmpFilename := (tmpFilename (S:=S) UnixNano Uint32).
Abbreviation downloadURLs := (downloadURLs UnixNano Uint32).
Abbreviation downloadItems := (downloadItems UnixNano Uint32 PathEscape).
Abbreviation downloadPage := (downloadPage UnixNano Uint32 PathEscape).
Abbreviation pollLoop := (pollLoop UnixNano Uint32 PathEscape).
Abbreviation poll := (poll UnixNano Uint32 PathEscape).

Lemma quiet_ret {A} (a : A) : fetchesNoListing (ret (S:=S) a).
Proof. intros w. reflexivity. Qed.

Lemma quiet_panic {A} : fetchesNoListing (panic (S:=S) (A:=A)).
Proof. intros w. reflexivity. Qed.

Lemma quiet_bind {A B} (m : M A) (k : A -> M B) :
  fetchesNoListing m -> (forall a, fetchesNoListing (k a)) ->
  fetchesNoListing (bind m k).
Proof.
  intros Hm Hk w. unfold bind. specialize (Hm w).
  destruct (m w) as [a w' | w' | w']; cbn [worldOf] in *; try exact Hm.
  rewrite Hk. exact Hm.
Qed.

Lemma quiet_sys {A} (f : FS -> A * FS) : fetchesNoListing (sys (S:=S) f).
Proof. intros w. unfold sys. destruct (f (w_fs w)). reflexivity. Qed.

Lemma quiet_tmpFilename : fetchesNoListing tmpFilename.
Proof. intros w. reflexivity. Qed.

Lemma quiet_Release : fetchesNoListing (Release (S:=S)).
Proof. intros w. unfold Release. destruct (_ <? 0); reflexivity. Qed.

Lemma quiet_callDownload url : fetchesNoListing (callDownload url).
Proof.
  intros w. unfold callDownload. destruct (Download url (w_session w)).
  reflexivity.
Qed.

Lemma quiet_go t : fetchesNoListing (go (S:=S) t).
Proof.
  intros w. unfold go, emit, listingFetches. cbn.
  rewrite filter_app. cbn. apply app_nil_r.
Qed.

Lemma quiet_downloadFile dir file r : fetchesNoListing (downloadFile dir file r).
Proof.
  unfold Main.downloadFile. apply quiet_bind; [apply quiet_tmpFilename |].
  intros name. apply quiet_sys.
Qed.

Lemma quiet_writeText dir file text : fetchesNoListing (writeText dir file text).
Proof.
  unfold Main.writeText. apply quiet_bind; [apply quiet_tmpFilename |].
  intros name. apply quiet_bind; [apply quiet_sys |].
  intros [e |]; [apply quiet_sys | apply quiet_ret].
Qed.

Lemma quiet_goroutine t : fetchesNoListing (goroutine t).
Proof.
  unfold Main.goroutine. apply quiet_bind; [apply quiet_callDownload |].
  intros r. destruct (got_err r); [apply quiet_Release |].
  destruct (got_body r).
  - apply quiet_bind; [apply quiet_downloadFile | intros; apply quiet_Release].
  - apply quiet_bind; [apply quiet_Release | intros; apply quiet_panic].
Qed.

Lemma quiet_acquireFrom waiting : fetchesNoListing (acquireFrom waiting).
Proof.
  induction waiting as [| t ts IH]; intros w; cbn [Main.acquireFrom].
  - destruct (1 <=? _); [reflexivity |]. destruct (_ <? 1); reflexivity.
  - destruct (1 <=? _); [reflexivity |]. destruct (_ <? 1); [reflexivity |].
    exact (quiet_bind _ _ (quiet_goroutine t) (fun _ => IH) (set_running ts w)).
Qed.

Lemma quiet_Acquire : fetchesNoListing Acquire.
Proof. intros w. apply quiet_acquireFrom. Qed.

Lemma quiet_downloadURLs dir urls : forall fetched,
  fetchesNoListing (downloadURLs dir urls fetched).
Proof.
  induction urls as [| url urls IH]; intros fetched; cbn [Main.downloadURLs].
  - apply quiet_ret.
  - apply quiet_bind; [apply quiet_sys |].
    intros [e |]; [| apply IH].
    apply quiet_bind; [apply quiet_Acquire |]. intros _.
    apply quiet_bind; [apply quiet_go |]. intros _. apply IH.
Qed.

Lemma quiet_downloadItems c items : forall lastFetched,
  fetchesNoListing (downloadItems c items lastFetched).
Proof.
  induction items as [| item items IH]; intros lastFetched;
    cbn [Main.downloadItems].
  - apply quiet_ret.
  - destruct (itemURLs c item) as [[urls text] |]; [| apply IH].
    destruct (Z.of_nat (length urls) =? 0); [apply IH |].
    apply quiet_bind; [apply quiet_sys |].
    intros [e |]; [apply quiet_ret |].
    apply quiet_bind; [apply quiet_downloadURLs |]. intros fetched.
    apply quiet_bind; [apply quiet_writeText |]. intros _. apply IH.
Qed.

(** What the loop of [poll] does with a session that hands a page back:
    when the page limit admits a page, the first listing arrives, and
    [downloadPage] reports [lastFetched = true] for it without error,
    [poll false] returns nil right there, having fetched exactly one listing,
    the one of the supporting creators, and no older page. *)
Lemma pollLoop_stops_after_fetched_page c (w : World) lp s1 w2 :
  0 < MaxPageBehind c ->
  SupportingPosts (w_session w) = (Value lp, s1) ->
  downloadPage c lp (set_session s1 (emit CallSupportingPosts w))
    = Done (true, None) w2 ->
  poll c false w = Done None w2 /\
  listingFetches (w_trace w2) =
    (listingFetches (w_trace w) ++ [CallSupportingPosts])%list.
Proof.
  intros Hm Hs Hd. split.
  - unfold Main.poll.
    destruct (Z.to_nat (MaxPageBehind c)) as [| n] eqn:En; [lia |].
    cbn [Main.pollLoop]. unfold bind at 1. cbn [Z.eqb].
    unfold bind at 1. unfold callSupportingPosts. rewrite Hs.
    cbn [ret]. unfold bind at 1. rewrite Hd. reflexivity.
  - pose proof (quiet_downloadItems c (Items (PBody lp)) false
                  (set_session s1 (emit CallSupportingPosts w))) as Hq.
    unfold Main.downloadPage in Hd. rewrite Hd in Hq. cbn [worldOf] in Hq.
    rewrite Hq. unfold emit, set_session, listingFetches. cbn.
    rewrite filter_app. reflexivity.
Qed.

End Listing.

(* ===================================================================== *)
(** * Further properties of the session client *)
(* ===================================================================== *)

Section Fetching.
Variable parseURL : string -> option string.

(** X1.  With a retry count that is not negative, no fetch succeeds,
    whatever the network answers: [get] and [Download] return an error, and
    [Get] returns an error and never a decoded value. *)
Theorem fetch_always_fails {A} (decode : string -> string + A) url header sc :
  0 <= Retries sc ->
  (exists e, got_err (fst (get parseURL url header sc)) = Some e) /\
  (exists e, got_err (fst (Fanbox.Download parseURL url sc)) = Some e) /\
  (exists e, fst (Get parseURL decode url sc) = Failed e).
Proof.
  intros Hr.
  assert (Hget : forall h, exists e,
             got_err (fst (get parseURL url h sc)) = Some e).
  { intros h. pose proof (get_never_succeeds parseURL url h sc Hr) as Hn.
    destruct (got_err (fst (get parseURL url h sc))) as [e |];
      [eauto | contradiction]. }
  split; [apply Hget |]. split; [apply Hget |].
  unfold Get.
  destruct (Hget {[ "Accept" := ["application/json, text/plain, */*"] ]})
    as [e He].
  destruct (get parseURL url _ sc) as [res sc1]. cbn [fst] in He.
  rewrite He. eauto.
Qed.

(** X2.  With a negative retry count the loop body never runs: [get] hands
    nothing to the client and returns a nil body together with a nil error,
    and [Get], which reads from that body, panics. *)
Theorem get_negative_retries {A} (decode : string -> string + A) url header sc :
  parseURL url = None ->
  Retries sc < 0 ->
  get parseURL url header sc = (mkGetResult None None, sc) /\
  Get parseURL decode url sc = (Panicked, sc).
Proof.
  intros Hp Hr.
  assert (Hget : forall h, get parseURL url h sc = (mkGetResult None None, sc)).
  { intros h. unfold get, NewRequest, attempts. rewrite Hp.
    replace (Z.to_nat (Retries sc + 1)) with O by lia. reflexivity. }
  split; [apply Hget |]. unfold Get. rewrite Hget. reflexivity.
Qed.

(** X3.  Every request [get] hands to the client is a GET of the URL it was
    given and carries the four fixed headers, which replace whatever the
    caller passed under those keys; every other header of the caller is
    passed on unchanged, except Cookie, which the client writes from its
    jar. *)
Theorem get_requests_carry_fixed_headers url header sc request :
  In request (skipn (length (sent (HTTPClient sc)))
                (sent (HTTPClient (snd (get parseURL url header sc))))) ->
  Method request = "GET" /\ URL request = url /\
  ReqHeader request !! "Origin" = Some [OriginURL] /\
  ReqHeader request !! "Referer" = Some [RefererURL] /\
  ReqHeader request !! "User-Agent" = Some [UserAgent] /\
  ReqHeader request !! "Dnt" = Some ["1"] /\
  (forall k, k <> "Origin" -> k <> "Referer" -> k <> "User-Agent" ->
             k <> "Dnt" -> k <> "Cookie" ->
             ReqHeader request !! k = header !! k).
Proof.
  unfold get, NewRequest.
  destruct (parseURL url) as [e |].
  - cbn [snd]. rewrite skipn_all. intros [].
  - pose proof (getLoop_runs (attempts (Retries sc))
                  (setHeaders (mkRequest "GET" url ∅) header) sc None None)
      as (Hs & _).
    rewrite Hs, skipn_app, skipn_all, Nat.sub_diag. cbn [skipn app].
    intros Hin.
    destruct (requestsFrom_keep _ _ _ _ _ Hin) as (Hm & Hu & Hh).
    rewrite Hm, Hu, !Hh by discriminate.
    unfold setHeaders, Header_Set, Header in *. cbn [Method URL ReqHeader].
    split; [reflexivity |]. split; [reflexivity |].
    split; [| split; [| split; [| split]]].
    + rewrite !lookup_insert_ne by discriminate. apply lookup_insert_eq.
    + rewrite !lookup_insert_ne by discriminate. apply lookup_insert_eq.
    + rewrite !lookup_insert_ne by discriminate. apply lookup_insert_eq.
    + apply lookup_insert_eq.
    + intros k H1 H2 H3 H4 H5. rewrite Hh by exact H5.
      cbn [ReqHeader].
      rewrite !lookup_insert_ne by congruence. reflexivity.
Qed.

Lemma Cookie_AddCookie c r :
  Header_Get "Cookie" (ReqHeader (AddCookie c r)) =
  joinCookie (Header_Get "Cookie" (ReqHeader r)) c.
Proof.
  unfold AddCookie, joinCookie.
  destruct (String.eqb (Header_Get "Cookie" (ReqHeader r)) "");
    cbn [ReqHeader]; unfold Header_Get at 1, Header_Set, Header;
    rewrite lookup_insert_eq; reflexivity.
Qed.

Lemma Cookie_AddCookies cs : forall r,
  Header_Get "Cookie" (ReqHeader (AddCookies cs r)) =
  fold_left joinCookie cs (Header_Get "Cookie" (ReqHeader r)).
Proof.
  unfold AddCookies.
  induction cs as [| c cs IH]; intros r; cbn [fold_left]; [reflexivity |].
  rewrite IH, Cookie_AddCookie. reflexivity.
Qed.

Lemma requestsFrom_first j n k r q :
  nth_error (requestsFrom j k n r) 0 = Some q ->
  q = AddCookies (j k (URL r)) r.
Proof. destruct n; cbn; [discriminate | congruence]. Qed.

Lemma requestsFrom_next j : forall i n k r q1 q2,
  nth_error (requestsFrom j k n r) i = Some q1 ->
  nth_error (requestsFrom j k n r) (Datatypes.S i) = Some q2 ->
  q2 = AddCookies (j (k + Datatypes.S i)%nat (URL q1)) q1.
Proof.
  induction i as [| i IH]; intros n k r q1 q2;
    (destruct n as [| n]; [discriminate |]); cbn [requestsFrom nth_error].
  - intros [= <-] H2. apply requestsFrom_first in H2.
    replace (k + 1)%nat with (Datatypes.S k) by lia. exact H2.
  - intros H1 H2.
    replace (k + Datatypes.S (Datatypes.S i))%nat
      with (Datatypes.S k + Datatypes.S i)%nat by lia.
    exact (IH _ _ _ _ _ H1 H2).
Qed.

(** X31.  The cookies pile up over the attempts.  The one request the retry
    loop hands to the client again and again keeps the cookies each attempt
    added: the first attempt goes out with the caller's Cookie header
    followed by the jar's cookies, and every later attempt with the Cookie
    header of the attempt before it followed by the jar's cookies once
    more. *)
Theorem get_retries_pile_up_cookies url header sc :
  let attempted :=
    skipn (length (sent (HTTPClient sc)))
      (sent (HTTPClient (snd (get parseURL url header sc)))) in
  let cookiesAt i :=
    jar (HTTPClient sc) (length (sent (HTTPClient sc)) + i)%nat url in
  (forall q,
      nth_error attempted 0 = Some q ->
      Header_Get "Cookie" (ReqHeader q) =
      fold_left joinCookie (cookiesAt O) (Header_Get "Cookie" header)) /\
  (forall i q1 q2,
      nth_error attempted i = Some q1 ->
      nth_error attempted (Datatypes.S i) = Some q2 ->
      Header_Get "Cookie" (ReqHeader q2) =
      fold_left joinCookie (cookiesAt (Datatypes.S i))
        (Header_Get "Cookie" (ReqHeader q1))).
Proof.
  cbv zeta. unfold get, NewRequest.
  destruct (parseURL url) as [e |].
  { cbn [snd]. rewrite skipn_all.
    split; [intros q Hq | intros [| i] q1 q2 H1]; discriminate. }
  pose proof (getLoop_runs (attempts (Retries sc))
                (setHeaders (mkRequest "GET" url ∅) header) sc None None)
    as (Hs & _).
  rewrite Hs, skipn_app, skipn_all, Nat.sub_diag. cbn [skipn app].
  split.
  - intros q Hq. apply requestsFrom_first in Hq. subst q.
    rewrite Cookie_AddCookies, Nat.add_0_r. cbn [URL setHeaders]. f_equal.
    unfold Header_Get, setHeaders, Header_Set, Header. cbn [ReqHeader].
    rewrite !lookup_insert_ne by discriminate. reflexivity.
  - intros i q1 q2 H1 H2.
    pose proof (requestsFrom_next _ _ _ _ _ _ _ H1 H2) as ->.
    apply nth_error_In in H1.
    destruct (requestsFrom_keep _ _ _ _ _ H1) as (_ & Hu & _).
    rewrite Cookie_AddCookies, Hu. reflexivity.
Qed.
End Fetching.

Lemma fetch_always_fails_witness :
  exists e,
    fst (Get Sample.parses (fun b : string => inr b) "https://api.fanbox.cc/x"
           (mkSessionClient (Sample.always Sample.ok200) 2)) = Failed e.
Proof.
  apply (fetch_always_fails Sample.parses (fun b : string => inr b)
           "https://api.fanbox.cc/x" ∅
           (mkSessionClient (Sample.always Sample.ok200) 2)).
  simpl. lia.
Defined.

Lemma get_negative_retries_witness :
  Get Sample.parses (fun b : string => inr b) "https://api.fanbox.cc/x"
    (mkSessionClient (Sample.always Sample.ok200) (-1))
  = (Panicked, mkSessionClient (Sample.always Sample.ok200) (-1)).
Proof.
  apply (get_negative_retries Sample.parses (fun b : string => inr b)
           "https://api.fanbox.cc/x" ∅
           (mkSessionClient (Sample.always Sample.ok200) (-1))).
  - reflexivity.
  - simpl. lia.
Defined.

Lemma get_requests_carry_fixed_headers_witness :
  ReqHeader
    (AddCookies Sample.cookies
       (AddCookies Sample.cookies
          (setHeaders (mkRequest "GET" "https://api.fanbox.cc/x" ∅)
             {[ "Origin" := ["elsewhere"] ]}))) !! "Origin"
  = Some [OriginURL].
Proof.
  apply (get_requests_carry_fixed_headers Sample.parses
           "https://api.fanbox.cc/x" {[ "Origin" := ["elsewhere"] ]}
           (mkSessionClient (Sample.loggedIn Sample.busy503) 1)).
  right. left. reflexivity.
Defined.

Lemma get_retries_pile_up_cookies_witness :
  Header_Get "Cookie"
    (ReqHeader
       (AddCookies Sample.cookies
          (AddCookies Sample.cookies
             (setHeaders (mkRequest "GET" "https://api.fanbox.cc/x" ∅) ∅))))
  = "privacy_policy_agreement=2; FANBOXSESSID=sid; privacy_policy_agreement=2; FANBOXSESSID=sid".
Proof.
  exact (proj2 (get_retries_pile_up_cookies Sample.parses
                  "https://api.fanbox.cc/x" ∅
                  (mkSessionClient (Sample.loggedIn Sample.busy503) 1))
           O
           (AddCookies Sample.cookies
              (setHeaders (mkRequest "GET" "https://api.fanbox.cc/x" ∅) ∅))
           (AddCookies Sample.cookies
              (AddCookies Sample.cookies
                 (setHeaders (mkRequest "GET" "https://api.fanbox.cc/x" ∅) ∅)))
           eq_refl eq_refl).
Defined.

Section Decoded.
Variable unmarshalItemBase : string -> string + ItemBase.
Variable unmarshalArticleBody : string -> string + option ArticleBody.
Variable unmarshalImageBody : string -> string + option ImageBody.
Variable unmarshalFileBody : string -> string + option FileBody.

(** X4.  An item that [UnmarshalJSON] returns has the base the base decoder
    produced.  Its body is never of another variant than its type tag names:
    an article body comes with the tag "article", an image body with
    "image", a file body with "file", each as the decoder of that variant
    left it.  The body is nil in two cases: for a tag that is none of the
    three, and for one of the three when decoding left nil in the body
    field (a JSON null). *)
Theorem UnmarshalJSON_body_follows_type b item :
  UnmarshalJSON unmarshalItemBase unmarshalArticleBody unmarshalImageBody
    unmarshalFileBody b = inr item ->
  unmarshalItemBase b = inr (base item) /\
  match Body item with
  | BodyArticle a =>
      Type_ (base item) = ItemTypeArticle /\
      unmarshalArticleBody b = inr (Some a)
  | BodyImage i =>
      Type_ (base item) = ItemTypeImage /\
      unmarshalImageBody b = inr (Some i)
  | BodyFile f =>
      Type_ (base item) = ItemTypeFile /\
      unmarshalFileBody b = inr (Some f)
  | BodyNil =>
      recognized (Type_ (base item)) = false \/
      (Type_ (base item) = ItemTypeArticle /\
       unmarshalArticleBody b = inr None) \/
      (Type_ (base item) = ItemTypeImage /\
       unmarshalImageBody b = inr None) \/
      (Type_ (base item) = ItemTypeFile /\
       unmarshalFileBody b = inr None)
  end.
Proof.
  unfold UnmarshalJSON, recognized.
  destruct (unmarshalItemBase b) as [e | ib]; [discriminate |].
  destruct (String.eqb (Type_ ib) ItemTypeArticle) eqn:Ea.
  { destruct (unmarshalArticleBody b) as [e | [a |]]; [discriminate | |];
      intros [= <-]; apply String.eqb_eq in Ea; cbn [base Body bodyOf]; auto. }
  destruct (String.eqb (Type_ ib) ItemTypeImage) eqn:Ei.
  { destruct (unmarshalImageBody b) as [e | [a |]]; [discriminate | |];
      intros [= <-]; apply String.eqb_eq in Ei; cbn [base Body bodyOf];
      auto 6. }
  destruct (String.eqb (Type_ ib) ItemTypeFile) eqn:Ef.
  { destruct (unmarshalFileBody b) as [e | [a |]]; [discriminate | |];
      intros [= <-]; apply String.eqb_eq in Ef; cbn [base Body bodyOf];
      auto 6. }
  intros [= <-]. cbn [base Body]. rewrite Ea, Ei, Ef. auto.
Qed.

(** X5.  [UnmarshalJSON] fails in two ways only.  It fails with "failed to
    unmarshal item base" exactly when the base does not decode, with the
    decoder's error as the cause.  It fails with "failed to unmarshal into
    item of exact type" exactly when the base decodes with one of the three
    recognized tags and the body decoder of that tag fails, again with the
    decoder's error as the cause; an unknown tag never makes it fail. *)
Theorem UnmarshalJSON_failures b :
  (forall cause,
      UnmarshalJSON unmarshalItemBase unmarshalArticleBody unmarshalImageBody
        unmarshalFileBody b = inl (ErrItemBase cause) <->
      unmarshalItemBase b = inl cause) /\
  (forall cause,
      UnmarshalJSON unmarshalItemBase unmarshalArticleBody unmarshalImageBody
        unmarshalFileBody b = inl (ErrItemExact cause) <->
      exists ib,
        unmarshalItemBase b = inr ib /\
        ((Type_ ib = ItemTypeArticle /\ unmarshalArticleBody b = inl cause) \/
         (Type_ ib = ItemTypeImage /\ unmarshalImageBody b = inl cause) \/
         (Type_ ib = ItemTypeFile /\ unmarshalFileBody b = inl cause))) /\
  (forall e,
      UnmarshalJSON unmarshalItemBase unmarshalArticleBody unmarshalImageBody
        unmarshalFileBody b = inl e ->
      (exists cause, e = ErrItemBase cause) \/
      (exists cause, e = ErrItemExact cause)) /\
  (forall ib,
      unmarshalItemBase b = inr ib -> recognized (Type_ ib) = false ->
      UnmarshalJSON unmarshalItemBase unmarshalArticleBody unmarshalImageBody
        unmarshalFileBody b = inr (mkItem ib BodyNil)).
Proof.
  unfold UnmarshalJSON, recognized.
  destruct (unmarshalItemBase b) as [c | ib].
  { split; [| split; [| split]].
    - intros cause. split; intros [= <-]; reflexivity.
    - intros cause. split; [discriminate |]. intros (ib & Hb & _).
      discriminate.
    - intros e [= <-]. eauto.
    - discriminate. }
  destruct (String.eqb (Type_ ib) ItemTypeArticle) eqn:Ea.
  { pose proof Ea as Ha. apply String.eqb_eq in Ha.
    split; [| split; [| split]].
    - intros cause. split; [| discriminate].
      destruct (unmarshalArticleBody b); discriminate.
    - intros cause. split.
      + destruct (unmarshalArticleBody b) as [c |] eqn:E; [| discriminate].
        intros [= <-]. exists ib. auto.
      + intros (ib' & [= <-] & [[_ ->] | [[Ht _] | [Ht _]]]);
          [reflexivity | |]; rewrite Ht in Ha; discriminate.
    - intros e. destruct (unmarshalArticleBody b); [| discriminate].
      intros [= <-]. eauto.
    - intros ib' [= <-]. rewrite Ea. discriminate. }
  destruct (String.eqb (Type_ ib) ItemTypeImage) eqn:Ei.
  { pose proof Ei as Hi. apply String.eqb_eq in Hi.
    split; [| split; [| split]].
    - intros cause. split; [| discriminate].
      destruct (unmarshalImageBody b); discriminate.
    - intros cause. split.
      + destruct (unmarshalImageBody b) as [c |] eqn:E; [| discriminate].
        intros [= <-]. exists ib. auto.
      + intros (ib' & [= <-] & [[Ht _] | [[_ ->] | [Ht _]]]);
          [| reflexivity |]; rewrite Ht in Hi; discriminate.
    - intros e. destruct (unmarshalImageBody b); [| discriminate].
      intros [= <-]. eauto.
    - intros ib' [= <-]. rewrite Ea, Ei. discriminate. }
  destruct (String.eqb (Type_ ib) ItemTypeFile) eqn:Ef.
  { pose proof Ef as Hf. apply String.eqb_eq in Hf.
    split; [| split; [| split]].
    - intros cause. split; [| discriminate].
      destruct (unmarshalFileBody b); discriminate.
    - intros cause. split.
      + destruct (unmarshalFileBody b) as [c |] eqn:E; [| discriminate].
        intros [= <-]. exists ib. auto.
      + intros (ib' & [= <-] & [[Ht _] | [[Ht _] | [_ ->]]]);
          [| | reflexivity]; rewrite Ht in Hf; discriminate.
    - intros e. destruct (unmarshalFileBody b); [| discriminate].
      intros [= <-]. eauto.
    - intros ib' [= <-]. rewrite Ea, Ei, Ef. discriminate. }
  split; [| split; [| split]].
  - intros cause. split; discriminate.
  - intros cause. split; [discriminate |].
    intros (ib' & [= <-] & [[Ht _] | [[Ht _] | [Ht _]]]);
      apply String.eqb_eq in Ht; congruence.
  - discriminate.
  - intros ib' [= <-] _. reflexivity.
Qed.
End Decoded.

Lemma UnmarshalJSON_body_follows_type_witness :
  (Type_ (base Sample.noImages) = ItemTypeImage /\
   (inr (Some (mkImageBody "txt" [])) : string + option ImageBody)
   = inr (Some (mkImageBody "txt" []))) /\
  (recognized (Type_ (Sample.itemBase "image" "B")) = false \/
   (Type_ (Sample.itemBase "image" "B") = ItemTypeArticle /\
    (inl "unused" : string + option ArticleBody) = inr None) \/
   (Type_ (Sample.itemBase "image" "B") = ItemTypeImage /\
    (inr None : string + option ImageBody) = inr None) \/
   (Type_ (Sample.itemBase "image" "B") = ItemTypeFile /\
    (inl "unused" : string + option FileBody) = inr None)).
Proof.
  split.
  - apply (UnmarshalJSON_body_follows_type
             (fun _ => inr (Sample.itemBase "image" "B"))
             (fun _ => inl "unused")
             (fun _ => inr (Some (mkImageBody "txt" [])))
             (fun _ => inl "unused") "{}" Sample.noImages eq_refl).
  - apply (UnmarshalJSON_body_follows_type
             (fun _ => inr (Sample.itemBase "image" "B"))
             (fun _ => inl "unused") (fun _ => inr None)
             (fun _ => inl "unused") "{}"
             (mkItem (Sample.itemBase "image" "B") BodyNil) eq_refl).
Defined.

(* ===================================================================== *)
(** * The list of allowed extensions *)
(* ===================================================================== *)

Section Extensions.
Variable TrimSpace : string -> string.

Lemma fold_left_snoc {A B} (f : A -> B) (l : list A) : forall w : list B,
  fold_left (fun w x => (w ++ [f x])%list) l w = (w ++ map f l)%list.
Proof.
  induction l as [| x l IH]; intros w; cbn [fold_left map].
  - symmetry. apply app_nil_r.
  - rewrite IH, <- app_assoc. reflexivity.
Qed.

Lemma length_splitByte sep s :
  length (splitByte sep s) = Datatypes.S (occurrences sep s).
Proof.
  induction s as [| c s IH]; cbn [splitByte occurrences]; [reflexivity |].
  rewrite (Ascii.eqb_sym sep c).
  destruct (Ascii.eqb c sep); [cbn [length]; congruence |].
  destruct (splitByte sep s); [discriminate | exact IH].
Qed.

Lemma Include_In w word : Include w word = true <-> In word w.
Proof.
  unfold Include. rewrite existsb_exists. split.
  - intros (x & Hx & He). apply String.eqb_eq in He. congruence.
  - intros Hin. exists word. split; [exact Hin | apply String.eqb_refl].
Qed.

Lemma splitByte_clean sep s : occurs sep s = false -> splitByte sep s = [s].
Proof.
  induction s as [| c s IH]; cbn [splitByte occurs]; [reflexivity |].
  intros Ho. apply orb_false_iff in Ho as [Hc Hs].
  rewrite Ascii.eqb_sym, Hc, (IH Hs). reflexivity.
Qed.

Lemma splitByte_field sep a b :
  occurs sep a = false ->
  splitByte sep (a ++ String sep b)%string = a :: splitByte sep b.
Proof.
  induction a as [| c a IH]; intros Ho.
  - change (splitByte sep (String sep b) = "" :: splitByte sep b).
    cbn [splitByte]. rewrite Ascii.eqb_refl. reflexivity.
  - cbn [occurs] in Ho. apply orb_false_iff in Ho as [Hc Hs].
    change (splitByte sep (String c (a ++ String sep b)%string)
            = String c a :: splitByte sep b).
    cbn [splitByte]. rewrite Ascii.eqb_sym, Hc, (IH Hs). reflexivity.
Qed.

(** X6.  [UnmarshalText] keeps the words the receiver had and appends one
    word for every comma-separated field of the text, trimmed, in order: as
    many words as the text has commas, plus one, so that an empty text still
    appends a word.  A word is included afterwards exactly when it was
    before or is one of the trimmed fields.  The error is nil. *)
Theorem UnmarshalText_appends_fields w text :
  UnmarshalText TrimSpace w text =
    ((w ++ map TrimSpace (splitByte comma text))%list, None) /\
  length (fst (UnmarshalText TrimSpace w text)) =
    (length w + Datatypes.S (occurrences comma text))%nat /\
  (forall word,
      Include (fst (UnmarshalText TrimSpace w text)) word =
      Include w word ||
      existsb (fun field => String.eqb (TrimSpace field) word)
        (splitByte comma text)).
Proof.
  unfold UnmarshalText. cbv zeta. rewrite fold_left_snoc. cbn [fst].
  split; [reflexivity |]. split.
  - rewrite length_app, length_map, length_splitByte. reflexivity.
  - intros word. unfold Include. rewrite existsb_app. f_equal.
    induction (splitByte comma text) as [| x l IH]; [reflexivity |].
    cbn [map existsb]. rewrite IH. reflexivity.
Qed.

Lemma splitByte_concat : forall ws x,
  Forall (fun x => occurs comma x = false) (x :: ws) ->
  splitByte comma (String.concat "," (x :: ws)) = x :: ws.
Proof.
  induction ws as [| y ws IH]; intros x Hall.
  - apply splitByte_clean. apply (Forall_inv Hall).
  - change (String.concat "," (x :: y :: ws))
      with (x ++ String comma (String.concat "," (y :: ws)))%string.
    rewrite splitByte_field by apply (Forall_inv Hall).
    rewrite IH by apply (Forall_inv_tail Hall). reflexivity.
Qed.

(** X7.  Writing words with commas between them and reading the text back
    gives the words again, provided there is at least one word, no word
    holds a comma, and trimming leaves every word as it is. *)
Theorem UnmarshalText_of_joined_words ws :
  ws <> [] ->
  Forall (fun x => occurs comma x = false /\ TrimSpace x = x) ws ->
  UnmarshalText TrimSpace [] (String.concat "," ws) = (ws, None).
Proof.
  intros Hne Hall. unfold UnmarshalText. cbv zeta.
  rewrite fold_left_snoc. cbn [app]. f_equal.
  destruct ws as [| x ws]; [contradiction |].
  rewrite splitByte_concat.
  - clear Hne. induction Hall as [| y l [_ Hy] _ IH]; [reflexivity |].
    cbn [map]. rewrite Hy, IH. reflexivity.
  - clear Hne. induction Hall as [| y l [Hy _] _ IH]; constructor; assumption.
Qed.
End Extensions.

Lemma UnmarshalText_of_joined_words_witness :
  UnmarshalText Sample.trim [] "gif,mp4" = (["gif"; "mp4"], None).
Proof.
  apply (UnmarshalText_of_joined_words Sample.trim ["gif"; "mp4"]).
  - discriminate.
  - repeat constructor.
Defined.

(* ===================================================================== *)
(** * Which files of an item are downloaded *)
(* ===================================================================== *)

Section Filtering.
Context {S : Type} `{Session S}.
Variable UnixNano : nat -> Z.
Variable Uint32 : nat -> Z.
Variable PathEscape : string -> string.

(** X8.  For an item with a file body, the URLs collected are those of the
    files whose extension is one of the allowed words, and no others; when
    no file of the item has an allowed extension the page is gone through as
    if the item were not on it, so that no directory is made for it. *)
Theorem files_filtered_by_extension c ib body :
  (forall url,
      In url (urlsOf c (mkItem ib (BodyFile body))) <->
      exists file,
        In file (Files body) /\ FileURL file = url /\
        In (FileExtension file) (AllowFileExts c)) /\
  ((forall file, In file (Files body) ->
                 ~ In (FileExtension file) (AllowFileExts c)) ->
   forall pre post next (w : World (S:=S)),
     downloadPage UnixNano Uint32 PathEscape c
       (mkPage (mkPageBody (pre ++ mkItem ib (BodyFile body) :: post) next)) w =
     downloadPage UnixNano Uint32 PathEscape c
       (mkPage (mkPageBody (pre ++ post) next)) w).
Proof.
  assert (Hurls : forall url,
             In url (urlsOf c (mkItem ib (BodyFile body))) <->
             exists file,
               In file (Files body) /\ FileURL file = url /\
               In (FileExtension file) (AllowFileExts c)).
  { intros url. unfold urlsOf, itemURLs. cbn [Body].
    rewrite in_map_iff. split.
    - intros (file & Hu & Hin). exists file.
      apply list_elem_of_In, list_elem_of_filter in Hin as [Hp Hin].
      apply Is_true_true, Include_In in Hp.
      apply list_elem_of_In in Hin. auto.
    - intros (file & Hin & Hu & He). exists file. split; [exact Hu |].
      apply list_elem_of_In, list_elem_of_filter. split.
      + apply Is_true_true, Include_In, He.
      + apply list_elem_of_In, Hin. }
  split; [exact Hurls |].
  intros Hnone pre post next w. unfold downloadPage. cbn [Items PBody].
  apply downloadItems_skip. unfold passedOver.
  destruct (urlsOf c (mkItem ib (BodyFile body))) as [| url urls] eqn:E;
    [reflexivity |].
  exfalso. destruct (proj1 (Hurls url)) as (file & Hin & _ & He).
  - try rewrite E. left. reflexivity.
  - exact (Hnone file Hin He).
Qed.
End Filtering.

Lemma files_filtered_by_extension_witness :
  downloadPage Sample.nano Sample.rnd Sample.escape Sample.config
    (Sample.pageOf [Sample.zipOnly]) (Sample.start (Sample.pageOf []))
  = downloadPage Sample.nano Sample.rnd Sample.escape Sample.config
      (Sample.pageOf []) (Sample.start (Sample.pageOf [])).
Proof.
  apply (proj2 (files_filtered_by_extension (S:=Sample.Scripted)
                  Sample.nano Sample.rnd Sample.escape Sample.config
                  (Sample.itemBase "file" "Z")
                  (mkFileBody [mkFile "zip" "1" "a" 10 "https://x/a.zip"] "txt"))
           ltac:(intros file [<- | []] [He | [He | []]]; discriminate He)
           [] [] "" (Sample.start (Sample.pageOf []))).
Defined.

(* ===================================================================== *)
(** * More on sanitizePath, and the names of temporary files *)
(* ===================================================================== *)

Section Names.

Lemma sanitizePath_clean s :
  occurs slash (sanitizePath s) = false /\ occurs NUL (sanitizePath s) = false.
Proof.
  induction s as [| c s [IH1 IH2]]; [split; reflexivity |].
  rewrite sanitizePath_cons, !occurs_append, IH1, IH2.
  destruct (sanitizeByte_clean c) as [-> ->]. auto.
Qed.

Lemma sanitizePath_keeps s :
  occurs slash s = false -> occurs NUL s = false -> sanitizePath s = s.
Proof.
  induction s as [| c s IH]; [reflexivity |]. cbn [occurs].
  intros H1 H2. apply orb_false_iff in H1 as [H1 H1'].
  apply orb_false_iff in H2 as [H2 H2'].
  rewrite sanitizePath_cons, (IH H1' H2'). unfold sanitizeByte.
  rewrite (Ascii.eqb_sym c slash), H1, (Ascii.eqb_sym c NUL), H2.
  reflexivity.
Qed.

Lemma append_assoc_str (a b c : string) :
  ((a ++ b) ++ c = a ++ (b ++ c))%string.
Proof.
  induction a as [| x a IH]; [reflexivity |].
  change (String x ((a ++ b) ++ c)%string = String x (a ++ (b ++ c))%string).
  congruence.
Qed.

(** X9.  [sanitizePath] returns its argument unchanged exactly when the
    argument holds no separator and no null byte; sanitizing twice is the
    same as sanitizing once. *)
Theorem sanitizePath_fixes_clean_names s :
  (sanitizePath s = s <->
   occurs slash s = false /\ occurs NUL s = false) /\
  sanitizePath (sanitizePath s) = sanitizePath s.
Proof.
  split.
  - split.
    + intros He. rewrite <- He. apply sanitizePath_clean.
    + intros [H1 H2]. apply sanitizePath_keeps; assumption.
  - destruct (sanitizePath_clean s) as [H1 H2].
    apply sanitizePath_keeps; assumption.
Qed.

(** X10.  [sanitizePath] works byte by byte: the sanitized concatenation
    of two strings is the concatenation of the sanitized strings. *)
Theorem sanitizePath_append a b :
  sanitizePath (a ++ b)%string = (sanitizePath a ++ sanitizePath b)%string.
Proof.
  induction a as [| c a IH]; [reflexivity |].
  change (sanitizePath (String c (a ++ b)%string)
          = (sanitizePath (String c a) ++ sanitizePath b)%string).
  rewrite !sanitizePath_cons, IH. symmetry. apply append_assoc_str.
Qed.

Lemma sextet_char v :
  exists c, sextet v = String c EmptyString /\ c <> slash.
Proof.
  unfold sextet.
  assert (Hn : (Z.to_nat (Z.land v 63) < 64)%nat).
  { change 63 with (Z.ones 6). rewrite Z.land_ones by lia.
    pose proof (Z.mod_pos_bound v (2 ^ 6) ltac:(lia)). lia. }
  revert Hn. generalize (Z.to_nat (Z.land v 63)). intros n Hn.
  do 64 (destruct n as [| n];
         [eexists; split; [reflexivity | discriminate] |]).
  lia.
Qed.

Lemma String_append_one c s : (String c EmptyString ++ s)%string = String c s.
Proof. reflexivity. Qed.

(** The shape of a temporary name: ".tmp." and sixteen more bytes, none a
    separator. *)
Lemma tmpFilenameOf_shape nano rnd :
  exists tail,
    tmpFilenameOf nano rnd = (".tmp." ++ tail)%string /\
    String.length tail = 16%nat /\ occurs slash tail = false.
Proof.
  unfold tmpFilenameOf. eexists. split; [reflexivity |].
  unfold littleEndian. cbn [seq map app EncodeToString].
  repeat match goal with
         | |- context [sextet ?v] =>
             let c := fresh "c" in
             let Hc := fresh "Hc" in
             let He := fresh "He" in
             destruct (sextet_char v) as (c & He & Hc);
             rewrite He; clear He
         end.
  rewrite !String_append_one. split; [reflexivity |].
  cbn [occurs append].
  repeat match goal with
         | Hc : ?c <> slash |- _ =>
             apply not_eq_sym, Ascii.eqb_neq in Hc; rewrite Hc; clear Hc
         end.
  reflexivity.
Qed.

Lemma JoinDir_plain (dir : Path) name :
  occurs slash name = false ->
  String.eqb name "" = false -> String.eqb name "." = false ->
  String.eqb name ".." = false ->
  JoinDir dir name = (fst dir, (snd dir ++ [name])%list).
Proof.
  intros Hs H1 H2 H3. unfold JoinDir.
  rewrite (splitSlash_one _ Hs). cbn [cleanOnto].
  rewrite H1, H2, H3. cbn [orb rev]. rewrite rev_involutive. reflexivity.
Qed.

Lemma JoinDir_tmp (dir : Path) nano rnd :
  JoinDir dir (tmpFilenameOf nano rnd) =
  (fst dir, (snd dir ++ [tmpFilenameOf nano rnd])%list).
Proof.
  destruct (tmpFilenameOf_shape nano rnd) as (tail & -> & _ & Hs).
  apply JoinDir_plain; [exact Hs | reflexivity ..].
Qed.

(** X11.  A temporary file is a sibling of the file it is written for: its
    name is 21 bytes long, starts with ".tmp." and holds no separator, so
    the temporary path is one level below the directory, its parent is the
    directory, and it is never the path of the info file. *)
Theorem tmpFilename_is_sibling (dir : Path) nano rnd :
  String.length (tmpFilenameOf nano rnd) = 21%nat /\
  (exists tail, tmpFilenameOf nano rnd = (".tmp." ++ tail)%string) /\
  occurs slash (tmpFilenameOf nano rnd) = false /\
  parent (JoinDir dir (tmpFilenameOf nano rnd)) = dir /\
  JoinDir dir (tmpFilenameOf nano rnd) <> JoinDir dir "info".
Proof.
  rewrite JoinDir_tmp.
  destruct (tmpFilenameOf_shape nano rnd) as (tail & -> & Hl & Hs).
  split; [| split; [| split; [| split]]].
  - change (Datatypes.S (Datatypes.S (Datatypes.S (Datatypes.S
              (Datatypes.S (String.length tail))))) = 21%nat).
    rewrite Hl. reflexivity.
  - exists tail. reflexivity.
  - exact Hs.
  - unfold parent. cbn [fst snd]. rewrite removelast_last.
    destruct dir; reflexivity.
  - rewrite (JoinDir_plain dir "info") by reflexivity.
    intros [= He]. apply app_inv_head in He. discriminate.
Qed.
End Names.

(* ===================================================================== *)
(** * More on the atomic write protocol *)
(* ===================================================================== *)

Section Writing.

(** X12.  [writeTmp] touches the temporary path and the destination only:
    every other path holds afterwards what it held before, however the
    write ends. *)
Theorem writeTmp_touches_two_paths dst tmp r fs (p : Path) :
  p <> tmp -> p <> dst ->
  snd (writeTmp dst tmp r fs) !! p = fs !! p.
Proof.
  intros Ht Hd.
  destruct (writeTmp_cases dst tmp r fs)
    as [[e ->] | [(e & He & ->) | [(e & He & ->) | (He & ->)]]];
    cbn [snd].
  - reflexivity.
  - apply lookup_delete_ne. congruence.
  - apply lookup_insert_ne. congruence.
  - rewrite lookup_insert_ne, lookup_delete_ne by congruence. reflexivity.
Qed.


(** When the write succeeds: the temporary path and the destination are
    different entries of one directory that exists, neither is a directory,
    and the body can be read to its end. *)
Lemma writeTmp_ok dst tmp r fs :
  tmp <> dst ->
  parent tmp = parent dst ->
  isDir fs (parent dst) = true ->
  isDir fs tmp = false ->
  isDir fs dst = false ->
  rc_err r = None -> rc_closed r = false ->
  writeTmp dst tmp r fs =
    (None, <[dst := NFile (rc_data r)]> (delete tmp fs)).
Proof.
  unfold isDir. intros Hne Hp Hd Ht Hdst He Hc.
  assert (Hread : ReadAll r = (rc_data r, None, mkBody "" None false)).
  { unfold ReadAll. rewrite Hc, He. reflexivity. }
  assert (Hat : anchor tmp = false).
  { unfold lstat in Ht. destruct (anchor tmp); [discriminate | reflexivity]. }
  assert (Had : anchor dst = false).
  { unfold lstat in Hdst. destruct (anchor dst); [discriminate | reflexivity]. }
  assert (Hpt : parent dst <> tmp).
  { intros E. rewrite E in Hd. destruct (lstat fs tmp) as [[] |]; discriminate. }
  unfold writeTmp, Create. rewrite Hp.
  destruct (lstat fs tmp) as [[c |] |] eqn:Elt; try discriminate;
    destruct (lstat fs (parent dst)) as [[c' |] |] eqn:Elp; try discriminate.
  all: rewrite Copy_created, Hread; cbn [fst snd];
    unfold Rename; rewrite lookup_insert_eq;
    unfold lstat; rewrite Had;
    rewrite (lookup_insert_ne fs tmp dst) by exact Hne;
    unfold lstat in Hdst; rewrite Had in Hdst;
    destruct (fs !! dst) as [[cd |] |] eqn:Ed; try discriminate;
    (destruct (anchor (parent dst)) eqn:Eap;
     [| rewrite (lookup_insert_ne fs tmp (parent dst)) by congruence;
        unfold lstat in Elp; rewrite Eap in Elp; rewrite Elp]);
    rewrite delete_insert_eq; reflexivity.
Qed.
End Writing.

Lemma writeTmp_touches_two_paths_witness :
  snd (writeTmp (false, ["d"; "a.png"]) (false, ["d"; ".tmp.x"])
         (mkBody "png" None false) {[ (false, ["d"]) := NDir ]})
    !! (false, ["d"])
  = ({[ (false, ["d"]) := NDir ]} : FS) !! (false, ["d"]).
Proof.
  apply (writeTmp_touches_two_paths (false, ["d"; "a.png"])
           (false, ["d"; ".tmp.x"]) (mkBody "png" None false)
           {[ (false, ["d"]) := NDir ]} (false, ["d"]));
    discriminate.
Defined.

(* ===================================================================== *)
(** * Writing into the item directory *)
(* ===================================================================== *)

Section Files.
Context {S : Type} `{Session S}.
Variable UnixNano : nat -> Z.
Variable Uint32 : nat -> Z.

Abbreviation World := (World (S:=S)).
Abbreviation goroutine := (goroutine UnixNano Uint32).
Abbreviation writeText := (writeText (S:=S) UnixNano Uint32).
Abbreviation downloadFile := (downloadFile (S:=S) UnixNano Uint32).

Abbreviation nextTmp := (nextTmp (S:=S) UnixNano Uint32).

Lemma nextTmp_parent dir w : parent (nextTmp dir w) = dir.
Proof.
  unfold Spec.nextTmp. rewrite JoinDir_tmp. unfold parent. cbn [fst snd].
  rewrite removelast_last. destruct dir; reflexivity.
Qed.

Lemma plain_parent (dir : Path) name :
  occurs slash name = false ->
  String.eqb name "" = false -> String.eqb name "." = false ->
  String.eqb name ".." = false ->
  parent (JoinDir dir name) = dir.
Proof.
  intros. rewrite JoinDir_plain by assumption. unfold parent. cbn [fst snd].
  rewrite removelast_last. destruct dir; reflexivity.
Qed.

Lemma nextTmp_not_plain dir w name :
  String.length name <> 21%nat ->
  occurs slash name = false ->
  String.eqb name "" = false -> String.eqb name "." = false ->
  String.eqb name ".." = false ->
  nextTmp dir w <> JoinDir dir name.
Proof.
  intros Hl Hs H1 H2 H3. unfold Spec.nextTmp.
  rewrite JoinDir_tmp, (JoinDir_plain dir name) by assumption.
  intros [= He]. apply app_inv_head in He. injection He as He.
  apply Hl. rewrite <- He.
  destruct (tmpFilenameOf_shape (UnixNano (w_ticks w)) (Uint32 (w_ticks w)))
    as (tail & -> & Ht & _).
  change (Datatypes.S (Datatypes.S (Datatypes.S (Datatypes.S
            (Datatypes.S (String.length tail))))) = 21%nat).
  rewrite Ht. reflexivity.
Qed.

(** X14.  [writeText] never overwrites: when something is already at the
    path of the file, it returns nil and leaves the file system as it is;
    only a temporary name has been drawn. *)
Theorem writeText_keeps_existing_file dir file text (w : World) :
  present (w_fs w) (JoinDir dir file) = true ->
  writeText dir file text w = Done None (set_ticks (Datatypes.S (w_ticks w)) w).
Proof.
  unfold present. intros Hp. unfold Main.writeText, bind, Main.tmpFilename.
  rewrite stat_run. cbn [w_fs set_ticks].
  destruct (Stat (w_fs w) (JoinDir dir file)); [discriminate | reflexivity].
Qed.

(** X15.  The first info file.  In an item directory that exists and has
    no info entry yet, and where the temporary name is not taken by a
    directory, [writeText] returns nil, the info file holds exactly the
    text, the temporary file is gone, and nothing else has changed. *)
Theorem writeText_creates_info dir text (w : World) :
  isDir (w_fs w) dir = true ->
  lstat (w_fs w) (JoinDir dir "info") = None ->
  isDir (w_fs w) (nextTmp dir w) = false ->
  writeText dir "info" text w =
    Done None
      (set_fs (<[JoinDir dir "info" := NFile text]>
                 (delete (nextTmp dir w) (w_fs w)))
         (set_ticks (Datatypes.S (w_ticks w)) w)).
Proof.
  intros Hd Hi Ht. unfold Main.writeText, bind, Main.tmpFilename.
  rewrite stat_run. cbn [w_fs set_ticks]. unfold Stat. rewrite Hi.
  unfold sys. cbn [w_fs].
  fold (nextTmp dir w). cbn [w_fs set_ticks].
  rewrite (writeTmp_ok (JoinDir dir "info") (nextTmp dir w) (NewReader text)).
  - reflexivity.
  - apply nextTmp_not_plain; [discriminate | reflexivity ..].
  - rewrite nextTmp_parent. symmetry. apply plain_parent; reflexivity.
  - rewrite plain_parent by reflexivity. exact Hd.
  - exact Ht.
  - unfold isDir. rewrite Hi. reflexivity.
  - reflexivity.
  - reflexivity.
Qed.

Lemma Release_held (w : World) :
  1 <= cur (w_sema w) ->
  Release w =
  Done tt (set_sema (mkWeighted (size (w_sema w)) (cur (w_sema w) - 1)) w).
Proof.
  intros Hc. unfold Release. cbn [cur].
  destruct (Z.ltb_spec (cur (w_sema w) - 1) 0); [lia | reflexivity].
Qed.

(** X16.  A download that fails writes nothing: when [Download] returns an
    error, the goroutine, which holds a slot of the semaphore, ends with the
    file system, the temporary names and the trace as they were, and gives
    its slot back. *)
Theorem goroutine_failed_download t (w : World) r s e :
  1 <= cur (w_sema w) ->
  Download (t_oURL t) (w_session w) = (r, s) ->
  got_err r = Some e ->
  goroutine t w =
    Done tt
      (mkWorld (w_fs w) s
         (mkWeighted (size (w_sema w)) (cur (w_sema w) - 1))
         (w_running w) (w_ticks w) (w_trace w)).
Proof.
  intros Hc Hd He. unfold Main.goroutine, bind, callDownload.
  rewrite Hd, He. rewrite Release_held by exact Hc. reflexivity.
Qed.

(** X17.  [downloadFile] puts the body under the name it is given.  In a
    directory that exists, for a plain name that no directory has, a
    temporary name that no directory has either, and a body that can be read
    to its end, it returns nil and leaves the file holding exactly the bytes
    of the body, no temporary file, and everything else on disk as before;
    one temporary name has been drawn. *)
Theorem downloadFile_writes_attachment dir name body (w : World) :
  rc_err body = None -> rc_closed body = false ->
  isDir (w_fs w) dir = true ->
  occurs slash name = false ->
  String.eqb name "" = false ->
  String.eqb name "." = false ->
  String.eqb name ".." = false ->
  isDir (w_fs w) (JoinDir dir name) = false ->
  isDir (w_fs w) (nextTmp dir w) = false ->
  nextTmp dir w <> JoinDir dir name ->
  downloadFile dir name body w =
    Done None
      (set_fs (<[JoinDir dir name := NFile (rc_data body)]>
                 (delete (nextTmp dir w) (w_fs w)))
         (set_ticks (Datatypes.S (w_ticks w)) w)).
Proof.
  intros He Hc Hdir Hs H1 H2 H3 Hdst Htmp Hne.
  unfold Main.downloadFile, bind, Main.tmpFilename, sys.
  cbn [w_fs w_ticks set_ticks].
  fold (nextTmp dir w).
  rewrite (writeTmp_ok (JoinDir dir name) (nextTmp dir w) body).
  - reflexivity.
  - exact Hne.
  - rewrite nextTmp_parent. symmetry. apply plain_parent; assumption.
  - rewrite plain_parent by assumption. exact Hdir.
  - exact Htmp.
  - exact Hdst.
  - exact He.
  - exact Hc.
Qed.
End Files.

Lemma writeText_keeps_existing_file_witness :
  writeText Sample.nano Sample.rnd (itemDir Sample.config Sample.oneImage)
    "info" "new text" Sample.caughtUp
  = Done None (set_ticks 1 Sample.caughtUp).
Proof.
  apply (writeText_keeps_existing_file Sample.nano Sample.rnd
           (itemDir Sample.config Sample.oneImage) "info" "new text"
           Sample.caughtUp).
  reflexivity.
Defined.

Lemma writeText_creates_info_witness :
  returned
    (writeText Sample.nano Sample.rnd (itemDir Sample.config Sample.oneImage)
       "info" "the text" Sample.arrived) = Some None /\
  w_fs (worldOf
          (writeText Sample.nano Sample.rnd
             (itemDir Sample.config Sample.oneImage) "info" "the text"
             Sample.arrived))
    !! JoinDir (itemDir Sample.config Sample.oneImage) "info"
  = Some (NFile "the text").
Proof.
  rewrite (writeText_creates_info Sample.nano Sample.rnd
             (itemDir Sample.config Sample.oneImage) "the text" Sample.arrived
             eq_refl eq_refl eq_refl).
  split; [reflexivity |]. apply lookup_insert_eq.
Defined.

Lemma goroutine_failed_download_witness :
  goroutine (H:=fanboxSession Sample.parses (fun _ => inl "not json"))
    Sample.nano Sample.rnd Sample.fetchImage Sample.underWay
  = Done tt
      (mkWorld Sample.dirOnly
         (mkSessionClient
            (mkClient (fun _ _ => Sample.busy503) (fun _ _ => Sample.cookies)
               [AddCookies Sample.cookies
                  (setHeaders (mkRequest "GET" "https://x/c.png" ∅) ∅)])
            0)
         (mkWeighted 4 0) [] 0 []).
Proof.
  apply (goroutine_failed_download
           (H:=fanboxSession Sample.parses (fun _ => inl "not json"))
           Sample.nano Sample.rnd Sample.fetchImage Sample.underWay
           (mkGetResult (Some (mkBody "" None true))
              (Some (ErrStatusBody 503 "busy")))
           (mkSessionClient
              (mkClient (fun _ _ => Sample.busy503) (fun _ _ => Sample.cookies)
                 [AddCookies Sample.cookies
                    (setHeaders (mkRequest "GET" "https://x/c.png" ∅) ∅)])
              0)
           (ErrStatusBody 503 "busy")).
  - cbn. lia.
  - reflexivity.
  - reflexivity.
Defined.

Lemma downloadFile_writes_attachment_witness :
  downloadFile Sample.nano Sample.rnd (itemDir Sample.config Sample.oneImage)
    "c.png" (mkBody "png" None false) Sample.underWay
  = Done None
      (set_fs
         (<[JoinDir (itemDir Sample.config Sample.oneImage) "c.png"
            := NFile "png"]>
            (delete
               (nextTmp Sample.nano Sample.rnd
                  (itemDir Sample.config Sample.oneImage) Sample.underWay)
               Sample.dirOnly))
         (set_ticks 1 Sample.underWay)).
Proof.
  apply (downloadFile_writes_attachment Sample.nano Sample.rnd
           (itemDir Sample.config Sample.oneImage) "c.png"
           (mkBody "png" None false) Sample.underWay);
    try reflexivity.
  apply nextTmp_not_plain; [discriminate | reflexivity ..].
Defined.

(* ===================================================================== *)
(** * The semaphore and the download goroutines *)
(* ===================================================================== *)

Section Slots.
Context {S : Type} `{Session S}.
Variable UnixNano : nat -> Z.
Variable Uint32 : nat -> Z.
Variable PathEscape : string -> string.

Abbreviation World := (World (S:=S)).
Abbreviation goroutine := (goroutine UnixNano Uint32).
Abbreviation acquireFrom := (acquireFrom UnixNano Uint32).
Abbreviation Acquire := (Acquire UnixNano Uint32).
Abbreviation writeText := (writeText (S:=S) UnixNano Uint32).
Abbreviation downloadURLs := (downloadURLs UnixNano Uint32).
Abbreviation downloadItems := (downloadItems UnixNano Uint32 PathEscape).
Abbreviation downloadPage := (downloadPage UnixNano Uint32 PathEscape).

Variable good : S -> Prop.
Hypothesis sound : downloadsSoundOn good.

(** A goroutine always ends; it changes the disk, the session and the
    temporary names, and gives one slot back. *)
Lemma goroutine_ends t (w : World) :
  1 <= cur (w_sema w) ->
  good (w_session w) ->
  exists fs s n,
    goroutine t w =
    Done tt (mkWorld fs s (mkWeighted (size (w_sema w)) (cur (w_sema w) - 1))
               (w_running w) n (w_trace w)) /\
    good s.
Proof.
  intros Hc Hg. unfold Main.goroutine, bind, callDownload.
  destruct (sound (t_oURL t) (w_session w) Hg) as [Hg' Hb].
  destruct (Download (t_oURL t) (w_session w)) as [r s] eqn:Ed.
  cbn [fst snd] in Hg', Hb.
  destruct (got_err r) as [e |] eqn:Ee.
  - rewrite (Release_held (S:=S)) by exact Hc.
    do 3 eexists. split; [reflexivity | exact Hg'].
  - destruct (got_body r) as [body |] eqn:Eb.
    + unfold Main.downloadFile, bind, Main.tmpFilename, sys.
      cbn [w_fs set_session set_ticks].
      destruct (writeTmp _ _ body (w_fs w)) as [err fs].
      rewrite (Release_held (S:=S)) by exact Hc.
      do 3 eexists. split; [reflexivity | exact Hg'].
    + exfalso. apply Hb; reflexivity.
Qed.

(** [Acquire] returns when every running goroutine holds a slot and there
    is a slot to wait for; afterwards the main goroutine holds one slot more
    than there are goroutines. *)
Lemma Acquire_returns (w : World) :
  ready good w ->
  exists w',
    Acquire w = Done tt w' /\
    size (w_sema w') = size (w_sema w) /\
    cur (w_sema w') = Z.of_nat (length (w_running w')) + 1 /\
    cur (w_sema w') <= size (w_sema w') /\
    w_trace w' = w_trace w /\ good (w_session w').
Proof.
  intros [(Hsize & Hcur & Hle) Hg]. unfold Main.Acquire.
  destruct (w_running w) as [| t ts] eqn:Er; cbn [Main.acquireFrom].
  - cbn [length] in Hcur.
    destruct (Z.leb_spec 1 (size (w_sema w) - cur (w_sema w))); [| lia].
    eexists. split; [reflexivity |]. cbn. rewrite Er. cbn [length].
    repeat split; try reflexivity; try assumption; lia.
  - cbn [length] in Hcur.
    destruct (Z.leb_spec 1 (size (w_sema w) - cur (w_sema w))).
    + eexists. split; [reflexivity |]. cbn. rewrite Er. cbn [length].
      repeat split; try reflexivity; try assumption; lia.
    + destruct (Z.ltb_spec (size (w_sema w)) 1); [lia |].
      unfold bind.
      destruct (goroutine_ends t (set_running ts w)
                  ltac:(cbn [w_sema set_running]; lia) Hg)
        as (fs & s & n & -> & Hg').
      cbn [w_sema w_running w_trace set_running size cur].
      destruct ts as [| t' ts']; cbn [Main.acquireFrom w_sema size cur];
        (destruct (Z.leb_spec 1 (size (w_sema w) - (cur (w_sema w) - 1)));
         [| lia]);
        (eexists; split; [reflexivity |]); cbn; cbn [length] in Hcur;
        repeat split; try reflexivity; try assumption; lia.
Qed.

Lemma Acquire_go_returns t (w : World) :
  ready good w ->
  exists w',
    bind Acquire (fun _ => go t) w = Done tt w' /\
    ready good w' /\ size (w_sema w') = size (w_sema w) /\
    w_trace w' = (w_trace w ++ [Go t])%list.
Proof.
  intros Hw.
  destruct (Acquire_returns w Hw) as (w1 & E & Hs & Hc & Hl & Ht & Hg).
  unfold bind. rewrite E. unfold go. eexists. split; [reflexivity |].
  destruct Hw as [(Hsize & _) _]. unfold ready, slotsHeld.
  cbn [w_sema w_running w_trace w_session emit set_running].
  rewrite length_app. cbn [length]. rewrite Ht.
  repeat split; try assumption; lia.
Qed.

(** The loop over the URLs: it ends, it keeps the slots in order, it counts
    a URL as fetched or starts a goroutine for it, and it neither starts one
    nor changes anything when every file is there. *)
Lemma downloadURLs_returns dir : forall urls fetched (w : World),
  ready good w ->
  exists fetched' w',
    downloadURLs dir urls fetched w = Done fetched' w' /\
    ready good w' /\ size (w_sema w') = size (w_sema w) /\
    fetched <= fetched' <= fetched + Z.of_nat (length urls) /\
    Z.of_nat (length (w_trace w')) =
      Z.of_nat (length (w_trace w)) +
      (fetched + Z.of_nat (length urls) - fetched') /\
    (forallb (fun url => present (w_fs w) (JoinDir dir (Base url))) urls = true ->
     fetched' = fetched + Z.of_nat (length urls) /\ w' = w) /\
    (forallb (fun url => present (w_fs w) (JoinDir dir (Base url))) urls = false ->
     fetched' < fetched + Z.of_nat (length urls)).
Proof.
  induction urls as [| url urls IH]; intros fetched w Hw.
  - exists fetched, w. cbn [Main.downloadURLs forallb length].
    split; [reflexivity |]. split; [exact Hw |]. split; [reflexivity |].
    split; [lia |]. split; [lia |]. split; [intros _; split; [lia | reflexivity] |].
    discriminate.
  - cbn [Main.downloadURLs forallb length]. unfold bind at 1.
    rewrite stat_run.
    destruct (Stat (w_fs w) (JoinDir dir (Base url))) as [e |] eqn:Es.
    + assert (Hp : present (w_fs w) (JoinDir dir (Base url)) = false)
        by (unfold present; rewrite Es; reflexivity).
      rewrite Hp. cbn [andb].
      destruct (Acquire_go_returns (mkTask dir (Base url) url) w Hw)
        as (w1 & E1 & Hw1 & Hs1 & Ht1).
      unfold bind in E1 |- *.
      destruct (Acquire w) as [[] w0 | w0 | w0]; try discriminate.
      rewrite E1.
      destruct (IH fetched w1 Hw1) as (f' & w' & E & Hw' & Hs' & Hb & Ht & _ & _).
      exists f', w'. rewrite E.
      split; [reflexivity |]. split; [exact Hw' |]. split; [congruence |].
      split; [lia |]. split.
      * rewrite Ht, Ht1, length_app. cbn [length]. lia.
      * split; [discriminate | intros _; lia].
    + assert (Hp : present (w_fs w) (JoinDir dir (Base url)) = true)
        by (unfold present; rewrite Es; reflexivity).
      rewrite Hp. cbn [andb].
      destruct (IH (fetched + 1) w Hw)
        as (f' & w' & E & Hw' & Hs' & Hb & Ht & Hall & Hnot).
      exists f', w'. rewrite E.
      split; [reflexivity |]. split; [exact Hw' |]. split; [exact Hs' |].
      split; [lia |]. split; [lia |]. split.
      * intros Hq. destruct (Hall Hq) as [Hf Hw0]. split; [lia | exact Hw0].
      * intros Hq. specialize (Hnot Hq). lia.
Qed.

Lemma writeText_returns dir file text (w : World) :
  exists err fs,
    writeText dir file text w =
    Done err (set_fs fs (set_ticks (Datatypes.S (w_ticks w)) w)).
Proof.
  unfold Main.writeText, bind, Main.tmpFilename. rewrite stat_run.
  destruct (Stat _ _) as [e |].
  - unfold sys. destruct (writeTmp _ _ _ _) as [err fs]. eauto.
  - exists None, (w_fs w). reflexivity.
Qed.

Lemma ready_on_disk fs n (w : World) :
  ready good w -> ready good (set_fs fs (set_ticks n w)).
Proof. intros Hw. exact Hw. Qed.

(** The loop over the items ends and keeps the slots in order. *)
Lemma downloadItems_returns c : forall items lastFetched (w : World),
  ready good w ->
  exists r w',
    downloadItems c items lastFetched w = Done r w' /\
    ready good w' /\ size (w_sema w') = size (w_sema w).
Proof.
  induction items as [| item items IH]; intros lastFetched w Hw.
  - exists (lastFetched, None), w. auto.
  - cbn [Main.downloadItems].
    destruct (itemURLs c item) as [[urls text] |]; [| apply IH, Hw].
    destruct (Z.of_nat (length urls) =? 0); [apply IH, Hw |].
    unfold bind at 1. unfold sys at 1.
    destruct (MkdirAll (itemDir c item) (w_fs w)) as [[e |] fs].
    + eexists _, _. split; [reflexivity |]. split; [exact Hw | reflexivity].
    + unfold bind at 1.
      destruct (downloadURLs_returns (itemDir c item) urls 0 (set_fs fs w) Hw)
        as (f' & w1 & -> & Hw1 & Hs1 & _).
      unfold bind at 1.
      destruct (writeText_returns (itemDir c item) "info"
                  (ItemBase_URL PathEscape (base item) ++
                   String (ascii_of_nat 10) (String (ascii_of_nat 10) text))
                  w1) as (err & fs' & ->).
      destruct (IH (f' =? Z.of_nat (length urls))
                  (set_fs fs' (set_ticks (Datatypes.S (w_ticks w1)) w1))
                  (ready_on_disk _ _ _ Hw1)) as (r & w' & -> & Hw' & Hs').
      exists r, w'. split; [reflexivity |]. split; [exact Hw' |].
      rewrite Hs'. exact Hs1.
Qed.

(** X18.  With at least one slot in the semaphore and a session whose
    downloads return a body or an error, [downloadPage] always returns: it
    neither waits for ever nor panics.  Whenever it returns, the goroutines
    still running are at most as many as the semaphore has slots, each
    holding one; and the app [main] builds has [MaxRetries] slots. *)
Theorem downloadPage_returns_within_slots c page (w : World) :
  ready good w ->
  (exists r w',
      downloadPage c page w = Done r w' /\
      ready good w' /\
      size (w_sema w') = size (w_sema w) /\
      Z.of_nat (length (w_running w')) <= size (w_sema w)) /\
  (forall fs s,
      1 <= MaxRetries c -> good (setRetries (MaxRetries c) s) ->
      ready good (newApp c fs s) /\
      size (w_sema (newApp c fs s)) = MaxRetries c).
Proof.
  intros Hw. split.
  - destruct (downloadItems_returns c (Items (PBody page)) false w Hw)
      as (r & w' & E & Hw' & Hs).
    exists r, w'. split; [exact E |]. split; [exact Hw' |].
    split; [exact Hs |].
    destruct Hw' as [(_ & Hc & Hl) _]. lia.
  - intros fs s Hm Hg. unfold ready, slotsHeld, newApp, NewWeighted.
    cbn. repeat split; try lia. exact Hg.
Qed.

End Slots.

Lemma scripted_sound : downloadsSoundOn (S:=Sample.Scripted) Sample.answering.
Proof. intros url s Hs. split; [exact Hs | apply Hs]. Qed.

Lemma arrived_ready : ready Sample.answering Sample.arrived.
Proof.
  split.
  - unfold slotsHeld. cbn. lia.
  - intros url _. discriminate.
Qed.

Lemma downloadPage_returns_within_slots_witness :
  exists r w',
    downloadPage Sample.nano Sample.rnd Sample.escape Sample.config
      (Sample.pageOf [Sample.oneImage]) Sample.arrived = Done r w' /\
    Z.of_nat (length (w_running w')) <= 4.
Proof.
  destruct (downloadPage_returns_within_slots
              Sample.nano Sample.rnd Sample.escape Sample.answering
              scripted_sound Sample.config (Sample.pageOf [Sample.oneImage])
              Sample.arrived arrived_ready)
    as [(r & w' & E & _ & _ & Hl) _].
  exists r, w'. split; [exact E | exact Hl].
Defined.


(* ===================================================================== *)
(** * What a page does to the disk *)
(* ===================================================================== *)

Section Pages.
Context {S : Type} `{Session S}.
Variable UnixNano : nat -> Z.
Variable Uint32 : nat -> Z.
Variable PathEscape : string -> string.

Abbreviation World := (World (S:=S)).
Abbreviation Acquire := (Acquire UnixNano Uint32).
Abbreviation writeText := (writeText (S:=S) UnixNano Uint32).
Abbreviation downloadURLs := (downloadURLs UnixNano Uint32).
Abbreviation downloadItems := (downloadItems UnixNano Uint32 PathEscape).
Abbreviation downloadPage := (downloadPage UnixNano Uint32 PathEscape).

Lemma passedOver_false c item :
  passedOver c item = false ->
  exists url urls text,
    itemURLs c item = Some (url :: urls, text) /\
    urlsOf c item = url :: urls.
Proof.
  unfold passedOver, urlsOf.
  destruct (itemURLs c item) as [[[| url urls] text] |]; try discriminate.
  eauto.
Qed.

Lemma downloadItems_processed c item items url urls text lastFetched (w : World) :
  itemURLs c item = Some (url :: urls, text) ->
  downloadItems c (item :: items) lastFetched w =
  bind (sys (MkdirAll (itemDir c item)))
    (fun err =>
       match err with
       | Some e => ret (false, Some (ErrMkdir e))
       | None =>
           bind (downloadURLs (itemDir c item) (url :: urls) 0)
             (fun fetchedItems =>
                bind (writeText (itemDir c item) "info"
                        (ItemBase_URL PathEscape (base item) ++
                         String (ascii_of_nat 10)
                           (String (ascii_of_nat 10) text)))
                  (fun _ =>
                     downloadItems c items
                       (fetchedItems =? Z.of_nat (length (url :: urls)))))
       end) w.
Proof. intros Hu. cbn [Main.downloadItems]. rewrite Hu. reflexivity. Qed.

Lemma downloadItems_past c : forall pre items lastFetched (w : World),
  forallb (passedOver c) pre = true ->
  downloadItems c (pre ++ items) lastFetched w =
  downloadItems c items lastFetched w.
Proof.
  induction pre as [| a pre IH]; intros items lastFetched w Hall;
    [reflexivity |].
  cbn [forallb] in Hall. apply andb_true_iff in Hall as [Ha Hall].
  cbn [app]. rewrite downloadItems_passedOver by exact Ha. apply IH, Hall.
Qed.

Lemma MkdirAll_existing (fs : FS) (p : Path) :
  isDir fs p = true -> MkdirAll p fs = (None, fs).
Proof.
  unfold isDir, MkdirAll. destruct p as [b l]. cbn [fst snd]. intros Hd.
  assert (Hl : lstat fs (b, rev (rev l)) = Some NDir).
  { rewrite rev_involutive.
    destruct (lstat fs (b, l)) as [[] |]; try discriminate. reflexivity. }
  destruct (rev l); cbn [mkdirAll]; rewrite Hl; reflexivity.
Qed.

Lemma MkdirAll_on_file (fs : FS) (p : Path) content :
  lstat fs p = Some (NFile content) -> MkdirAll p fs = (Some ENOTDIR, fs).
Proof.
  unfold MkdirAll. destruct p as [b l]. cbn [fst snd]. intros Hf.
  assert (Hl : lstat fs (b, rev (rev l)) = Some (NFile content)).
  { rewrite rev_involutive. exact Hf. }
  destruct (rev l); cbn [mkdirAll]; rewrite Hl; reflexivity.
Qed.

Lemma downloadURLs_all_present dir : forall urls fetched (w : World),
  forallb (fun url => present (w_fs w) (JoinDir dir (Base url))) urls = true ->
  downloadURLs dir urls fetched w =
  Done (fetched + Z.of_nat (length urls)) w.
Proof.
  induction urls as [| url urls IH]; intros fetched w Hall.
  - cbn. rewrite Z.add_0_r. reflexivity.
  - cbn [forallb] in Hall. apply andb_true_iff in Hall as [Hp Hall].
    cbn [Main.downloadURLs]. unfold bind at 1. rewrite stat_run.
    unfold present in Hp.
    destruct (Stat (w_fs w) (JoinDir dir (Base url))); [discriminate |].
    rewrite IH by exact Hall. f_equal. cbn [length]. lia.
Qed.

Lemma writeText_skips dir file text (w : World) :
  present (w_fs w) (JoinDir dir file) = true ->
  writeText dir file text w = Done None (set_ticks (Datatypes.S (w_ticks w)) w).
Proof.
  unfold present. intros Hp. unfold Main.writeText, bind, Main.tmpFilename.
  rewrite stat_run. cbn [w_fs set_ticks].
  destruct (Stat (w_fs w) (JoinDir dir file)); [discriminate | reflexivity].
Qed.

Lemma set_ticks_set_ticks n m (w : World) :
  set_ticks n (set_ticks m w) = set_ticks n w.
Proof. reflexivity. Qed.

Lemma set_ticks_same (w : World) : set_ticks (w_ticks w) w = w.
Proof. destruct w; reflexivity. Qed.

(** The items [downloadPage] does not pass over. *)
Lemma downloadItems_synced c : forall items lastFetched (w : World),
  forallb (itemSynced c (w_fs w)) items = true ->
  downloadItems c items lastFetched w =
  Done (if forallb (passedOver c) items then lastFetched else true, None)
    (set_ticks
       (w_ticks w + length (filter (fun i => passedOver c i = false) items))
       w).
Proof.
  induction items as [| item items IH]; intros lastFetched w Hall.
  - cbn. rewrite Nat.add_0_r, set_ticks_same. reflexivity.
  - cbn [forallb] in Hall |- *. apply andb_true_iff in Hall as [Hi Hall].
    rewrite filter_cons.
    destruct (passedOver c item) eqn:Ep.
    + rewrite downloadItems_passedOver by exact Ep. cbn [andb].
      rewrite decide_False by discriminate. apply IH, Hall.
    + rewrite decide_True by reflexivity. cbn [andb length].
      unfold itemSynced in Hi. rewrite Ep in Hi. cbn [orb] in Hi.
      apply andb_true_iff in Hi as [Hi Hinfo].
      apply andb_true_iff in Hi as [Hdir Hfiles].
      destruct (passedOver_false c item Ep) as (url & urls & text & Hu & Hus).
      unfold itemComplete in Hfiles. rewrite Hus in Hfiles.
      rewrite (downloadItems_processed c item items url urls text) by exact Hu.
      unfold bind at 1. unfold sys.
      rewrite (MkdirAll_existing _ _ Hdir), set_fs_same.
      unfold bind at 1. rewrite downloadURLs_all_present by exact Hfiles.
      unfold bind at 1. rewrite writeText_skips by exact Hinfo.
      rewrite IH by exact Hall.
      rewrite Z.add_0_l, Z.eqb_refl. cbn [w_ticks set_ticks].
      rewrite set_ticks_set_ticks.
      replace (Datatypes.S (w_ticks w) +
               length (filter (fun i => passedOver c i = false) items))%nat
        with (w_ticks w +
              Datatypes.S
                (length (filter (fun i => passedOver c i = false) items)))%nat
        by lia.
      destruct (forallb (passedOver c) items); reflexivity.
Qed.

(** X20.  On a synced disk a page costs nothing.  When the directory, every
    attachment file and the info file of every item with attachments are on
    disk, [downloadPage] returns without error and leaves the disk, the
    session, the semaphore, the running goroutines and the trace exactly as
    they were: nothing is written and no download is started.  Only one
    temporary name per such item has been drawn.  [lastFetched] is true
    exactly when the page has an item with attachments. *)
Theorem downloadPage_on_synced_disk c page (w : World) :
  pageSynced c (w_fs w) page = true ->
  downloadPage c page w =
  Done (negb (forallb (passedOver c) (Items (PBody page))), None)
    (set_ticks
       (w_ticks w +
        length (filter (fun i => passedOver c i = false) (Items (PBody page))))
       w).
Proof.
  intros Hs. unfold Main.downloadPage.
  rewrite downloadItems_synced by exact Hs.
  destruct (forallb (passedOver c) (Items (PBody page))); reflexivity.
Qed.

(** X21.  A directory that cannot be made aborts the page.  When a file
    sits where the directory of the first item with attachments should be,
    [downloadPage] returns [lastFetched = false] with the error "failed to
    mkdir -p for item", looks at no later item, and leaves the world as it
    was. *)
Theorem downloadPage_mkdir_failure c pre item rest next content (w : World) :
  forallb (passedOver c) pre = true ->
  passedOver c item = false ->
  lstat (w_fs w) (itemDir c item) = Some (NFile content) ->
  downloadPage c (mkPage (mkPageBody (pre ++ item :: rest) next)) w =
  Done (false, Some (ErrMkdir ENOTDIR)) w.
Proof.
  intros Hpre Hp Hf. unfold Main.downloadPage. cbn [Items PBody].
  rewrite downloadItems_past by exact Hpre.
  destruct (passedOver_false c item Hp) as (url & urls & text & Hu & _).
  rewrite (downloadItems_processed c item rest url urls text) by exact Hu.
  unfold bind, sys. rewrite (MkdirAll_on_file _ _ _ Hf), set_fs_same.
  reflexivity.
Qed.

(** X22.  Without a slot the page waits for ever.  In the app [main] builds
    with [MaxRetries <= 0], the first attachment that is not on disk makes
    [downloadPage] wait for the semaphore for ever, after the directory of
    the item has been made. *)
Theorem downloadPage_blocks_without_slots c pre item rest next fs s fs' url urls text e :
  MaxRetries c <= 0 ->
  forallb (passedOver c) pre = true ->
  itemURLs c item = Some (url :: urls, text) ->
  MkdirAll (itemDir c item) fs = (None, fs') ->
  Stat fs' (JoinDir (itemDir c item) (Base url)) = Some e ->
  downloadPage c (mkPage (mkPageBody (pre ++ item :: rest) next))
    (newApp c fs s) =
  Stuck (set_fs fs' (newApp c fs s)).
Proof.
  intros Hm Hpre Hu Hmk Hs. unfold Main.downloadPage. cbn [Items PBody].
  rewrite downloadItems_past by exact Hpre.
  rewrite (downloadItems_processed c item rest url urls text) by exact Hu.
  unfold bind at 1. unfold sys. cbn [w_fs newApp]. rewrite Hmk.
  unfold bind at 1. cbn [Main.downloadURLs]. unfold bind at 1.
  rewrite stat_run. cbn [w_fs set_fs]. rewrite Hs.
  unfold bind at 1. unfold Main.Acquire.
  cbn [w_running set_fs newApp Main.acquireFrom w_sema NewWeighted size cur].
  destruct (Z.leb_spec 1 (MaxRetries c - 0)); [lia |].
  destruct (Z.ltb_spec (MaxRetries c) 1); [reflexivity | lia].
Qed.
End Pages.

Lemma downloadPage_on_synced_disk_witness :
  downloadPage Sample.nano Sample.rnd Sample.escape Sample.config
    (Sample.pageOf [Sample.unknown; Sample.oneImage; Sample.noImages])
    Sample.caughtUp
  = Done (true, None) (set_ticks 1 Sample.caughtUp).
Proof.
  apply (downloadPage_on_synced_disk Sample.nano Sample.rnd Sample.escape
           Sample.config
           (Sample.pageOf [Sample.unknown; Sample.oneImage; Sample.noImages])
           Sample.caughtUp).
  reflexivity.
Defined.

Lemma downloadPage_mkdir_failure_witness :
  downloadPage Sample.nano Sample.rnd Sample.escape Sample.config
    (Sample.pageOf [Sample.unknown; Sample.oneImage; Sample.twoImages])
    (mkWorld {[ itemDir Sample.config Sample.oneImage := NFile "in the way" ]}
       (Sample.script (Sample.pageOf [])) (NewWeighted 4) [] 0 [])
  = Done (false, Some (ErrMkdir ENOTDIR))
      (mkWorld {[ itemDir Sample.config Sample.oneImage := NFile "in the way" ]}
         (Sample.script (Sample.pageOf [])) (NewWeighted 4) [] 0 []).
Proof.
  apply (downloadPage_mkdir_failure Sample.nano Sample.rnd Sample.escape
           Sample.config [Sample.unknown] Sample.oneImage [Sample.twoImages]
           "" "in the way"); reflexivity.
Defined.

Lemma downloadPage_blocks_without_slots_witness :
  downloadPage Sample.nano Sample.rnd Sample.escape
    (mkConfig "sid" "." 8 0 2 300 ["gif"; "mp4"])
    (Sample.pageOf [Sample.oneImage])
    (newApp (mkConfig "sid" "." 8 0 2 300 ["gif"; "mp4"]) Sample.dirOnly
       (Sample.script (Sample.pageOf [])))
  = Stuck
      (set_fs Sample.dirOnly
         (newApp (mkConfig "sid" "." 8 0 2 300 ["gif"; "mp4"]) Sample.dirOnly
            (Sample.script (Sample.pageOf [])))).
Proof.
  apply (downloadPage_blocks_without_slots Sample.nano Sample.rnd Sample.escape
           (mkConfig "sid" "." 8 0 2 300 ["gif"; "mp4"]) [] Sample.oneImage []
           "" Sample.dirOnly (Sample.script (Sample.pageOf [])) Sample.dirOnly
           "https://x/c.png" [] "txt" ENOENT);
    reflexivity.
Defined.

(* ===================================================================== *)
(** * The value of lastFetched *)
(* ===================================================================== *)

Section LastItem.
Context {S : Type} `{Session S}.
Variable UnixNano : nat -> Z.
Variable Uint32 : nat -> Z.
Variable PathEscape : string -> string.
Variable good : S -> Prop.
Hypothesis sound : downloadsSoundOn good.

Abbreviation World := (World (S:=S)).
Abbreviation writeText := (writeText (S:=S) UnixNano Uint32).
Abbreviation downloadURLs := (downloadURLs UnixNano Uint32).
Abbreviation downloadItems := (downloadItems UnixNano Uint32 PathEscape).
Abbreviation downloadPage := (downloadPage UnixNano Uint32 PathEscape).

Lemma bind_assoc {A B C} (m : M (S:=S) A) (k1 : A -> M (S:=S) B)
    (k2 : B -> M (S:=S) C) (w : World) :
  bind (bind m k1) k2 w = bind m (fun a => bind (k1 a) k2) w.
Proof. unfold bind. destruct (m w); reflexivity. Qed.

(** Going through a list of items is going through its front part and
    then, unless that ended in an error, through the rest. *)
Lemma downloadItems_app c rest : forall pre lastFetched (w : World),
  downloadItems c (pre ++ rest) lastFetched w =
  bind (downloadItems c pre lastFetched)
    (fun r =>
       match snd r with
       | Some _ => ret r
       | None => downloadItems c rest (fst r)
       end) w.
Proof.
  induction pre as [| a pre IH]; intros lastFetched w; [reflexivity |].
  cbn [app Main.downloadItems].
  destruct (itemURLs c a) as [[urls text] |]; [| apply IH].
  destruct (Z.of_nat (length urls) =? 0); [apply IH |].
  rewrite bind_assoc. apply bind_ext. intros [e |] w1; [reflexivity |].
  rewrite bind_assoc. apply bind_ext. intros f w2.
  rewrite bind_assoc. apply bind_ext. intros _ w3. apply IH.
Qed.

(** X23.  [lastFetched] is the verdict on the last item that has
    attachments.  On a ready world, when the items before it were gone
    through without error, the item's directory could be made, and every
    item after it is passed over, [downloadPage] returns without error and
    [lastFetched] tells whether every attachment file of that item was on
    disk when the item was reached; earlier items have no say, nor have the
    items passed over after it. *)
Theorem lastFetched_is_last_item_with_attachments
    c pre item post next (w w1 : World) lf0 fs2 :
  ready good w ->
  passedOver c item = false ->
  forallb (passedOver c) post = true ->
  downloadItems c pre false w = Done (lf0, None) w1 ->
  MkdirAll (itemDir c item) (w_fs w1) = (None, fs2) ->
  exists w',
    downloadPage c (mkPage (mkPageBody (pre ++ item :: post) next)) w =
    Done (itemComplete c fs2 item, None) w'.
Proof.
  intros Hw Hp Hpost Hpre Hmk. unfold Main.downloadPage. cbn [Items PBody].
  rewrite downloadItems_app. unfold bind at 1. rewrite Hpre. cbn [snd fst].
  assert (Hw1 : ready good w1).
  { destruct (downloadItems_returns UnixNano Uint32 PathEscape good sound
                c pre false w Hw) as (r & w1' & E & Hr & _).
    rewrite Hpre in E. injection E as _ <-. exact Hr. }
  destruct (passedOver_false c item Hp) as (url & urls & text & Hu & Hus).
  rewrite (downloadItems_processed UnixNano Uint32 PathEscape
             c item post url urls text) by exact Hu.
  unfold bind at 1. unfold sys. rewrite Hmk.
  destruct (downloadURLs_returns UnixNano Uint32 good sound
              (itemDir c item) (url :: urls) 0 (set_fs fs2 w1) Hw1)
    as (f & w2 & E & _ & _ & Hb & _ & Hall & Hnot).
  unfold bind at 1. rewrite E.
  destruct (writeText_returns UnixNano Uint32 (itemDir c item) "info"
              (ItemBase_URL PathEscape (base item) ++
               String (ascii_of_nat 10) (String (ascii_of_nat 10) text)) w2)
    as (err & fs3 & E3).
  unfold bind at 1. rewrite E3.
  rewrite downloadItems_all_passedOver by exact Hpost.
  eexists. f_equal. f_equal.
  unfold itemComplete. rewrite Hus. cbn [w_fs set_fs] in Hall, Hnot.
  destruct (forallb _ (url :: urls)) eqn:Ef.
  - destruct (Hall eq_refl) as [-> _]. apply Z.eqb_refl.
  - specialize (Hnot eq_refl). apply Z.eqb_neq. lia.
Qed.
End LastItem.

Lemma lastFetched_is_last_item_with_attachments_witness :
  exists w',
    downloadPage Sample.nano Sample.rnd Sample.escape Sample.config
      (Sample.pageOf [Sample.unknown; Sample.oneImage; Sample.noImages])
      Sample.arrived
    = Done (false, None) w'.
Proof.
  destruct (lastFetched_is_last_item_with_attachments
              Sample.nano Sample.rnd Sample.escape Sample.answering
              scripted_sound Sample.config [Sample.unknown] Sample.oneImage
              [Sample.noImages] "" Sample.arrived Sample.arrived false
              Sample.dirOnly arrived_ready eq_refl eq_refl eq_refl eq_refl)
    as [w' E].
  exists w'. exact E.
Defined.

(* ===================================================================== *)
(** * The pages a poll looks at *)
(* ===================================================================== *)

Section Polling.
Context {S : Type} `{Session S}.
Variable UnixNano : nat -> Z.
Variable Uint32 : nat -> Z.
Variable PathEscape : string -> string.

Abbreviation World := (World (S:=S)).
Abbreviation downloadItems := (downloadItems UnixNano Uint32 PathEscape).
Abbreviation downloadPage := (downloadPage UnixNano Uint32 PathEscape).
Abbreviation pollLoop := (pollLoop UnixNano Uint32 PathEscape).
Abbreviation poll := (poll UnixNano Uint32 PathEscape).

Lemma listingFetches_emit e (w : World) :
  (length (listingFetches (w_trace (emit e w))) <=
   Datatypes.S (length (listingFetches (w_trace w))))%nat.
Proof.
  unfold emit, listingFetches. cbn [w_trace].
  rewrite filter_app, length_app.
  cbn [filter]. unfold filter. cbn. destruct (decide _); cbn; lia.
Qed.

(** What is left of an iteration once the listing has been asked for. *)
Lemma pollLoop_listings c : forall n fetchAll page lastPage (w : World),
  (length (listingFetches
             (w_trace (worldOf (pollLoop c n fetchAll page lastPage w))))
   <= length (listingFetches (w_trace w)) + n)%nat.
Proof.
  induction n as [| n IH]; intros fetchAll page lastPage w; [cbn; lia |].
  cbn [Main.pollLoop].
  assert (Hrest : forall r (w1 : World),
    (length (listingFetches (w_trace w1))
     <= Datatypes.S (length (listingFetches (w_trace w))))%nat ->
    (length (listingFetches (w_trace (worldOf
       (match r with
        | None => ret None
        | Some Panicked => panic
        | Some (Failed e) => ret (Some (ErrGetPage page e))
        | Some (Value lp) =>
            bind (downloadPage c lp)
              (fun res =>
                 match snd res with
                 | Some e => ret (Some (ErrDownloadPage page e))
                 | None =>
                     if negb fetchAll && fst res then ret None
                     else pollLoop c n fetchAll (page + 1) (Some lp)
                 end)
        end w1))))
     <= length (listingFetches (w_trace w)) + Datatypes.S n)%nat).
  { intros [[lp | e |] |] w1 Hw1; cbn [worldOf ret panic]; try lia.
    unfold bind.
    pose proof (quiet_downloadItems UnixNano Uint32 PathEscape c
                  (Items (PBody lp)) false w1) as Hq.
    unfold Main.downloadPage.
    destruct (Main.downloadItems UnixNano Uint32 PathEscape c
                (Items (PBody lp)) false w1) as [res w2 | w2 | w2];
      cbn [worldOf] in Hq |- *; try (rewrite Hq; lia).
    destruct (snd res); [cbn [worldOf ret]; rewrite Hq; lia |].
    destruct (negb fetchAll && fst res); [cbn [worldOf ret]; rewrite Hq; lia |].
    specialize (IH fetchAll (page + 1) (Some lp) w2). rewrite Hq in IH. lia. }
  unfold bind at 1.
  destruct (page =? 0).
  - unfold bind at 1. unfold callSupportingPosts.
    destruct (SupportingPosts (w_session w)) as [r s]. cbn [ret].
    apply (Hrest (Some r)). cbn [w_trace set_session].
    apply listingFetches_emit.
  - destruct lastPage as [lp |]; [| cbn [panic worldOf]; lia].
    destruct (negb (String.eqb (NextURL (PBody lp)) "")).
    + unfold bind at 1. unfold callPostsFromURL.
      destruct (PostsFromURL (NextURL (PBody lp)) (w_session w)) as [r s].
      cbn [ret]. apply (Hrest (Some r)). cbn [w_trace set_session].
      apply listingFetches_emit.
    + cbn [ret]. apply (Hrest None). lia.
Qed.

(** X24.  A poll fetches at most [MaxPageBehind] listings, whatever the
    session answers, whatever is on disk and however the poll ends. *)
Theorem poll_fetches_at_most_MaxPageBehind_listings c fetchAll (w : World) :
  (length (listingFetches (w_trace (worldOf (poll c fetchAll w))))
   <= length (listingFetches (w_trace w)) + Z.to_nat (MaxPageBehind c))%nat.
Proof. unfold Main.poll. apply pollLoop_listings. Qed.

(** X25.  A first listing that cannot be fetched ends the poll with the
    error "failed to get supporting posts page 0"; the disk is untouched and
    no download has been started. *)
Theorem poll_first_page_failure c fetchAll (w : World) e s :
  0 < MaxPageBehind c ->
  SupportingPosts (w_session w) = (Failed e, s) ->
  poll c fetchAll w =
  Done (Some (ErrGetPage 0 e)) (set_session s (emit CallSupportingPosts w)).
Proof.
  intros Hm Hs. unfold Main.poll.
  destruct (Z.to_nat (MaxPageBehind c)) as [| n] eqn:En; [lia |].
  cbn [Main.pollLoop]. unfold bind at 1. cbn [Z.eqb].
  unfold bind at 1. unfold callSupportingPosts. rewrite Hs. reflexivity.
Qed.

End Polling.

Lemma poll_first_page_failure_witness :
  poll Sample.nano Sample.rnd Sample.escape Sample.config false
    (mkWorld Sample.dirOnly
       (Sample.mkScripted (Failed (ErrStatus 503))
          (fun _ => Failed (ErrStatus 404)) Sample.served)
       (NewWeighted 4) [] 0 [])
  = Done (Some (ErrGetPage 0 (ErrStatus 503)))
      (mkWorld Sample.dirOnly
         (Sample.mkScripted (Failed (ErrStatus 503))
            (fun _ => Failed (ErrStatus 404)) Sample.served)
         (NewWeighted 4) [] 0 [CallSupportingPosts]).
Proof.
  apply (poll_first_page_failure Sample.nano Sample.rnd Sample.escape
           Sample.config false
           (mkWorld Sample.dirOnly
              (Sample.mkScripted (Failed (ErrStatus 503))
                 (fun _ => Failed (ErrStatus 404)) Sample.served)
              (NewWeighted 4) [] 0 [])
           (ErrStatus 503)
           (Sample.mkScripted (Failed (ErrStatus 503))
              (fun _ => Failed (ErrStatus 404)) Sample.served));
    reflexivity.
Defined.

(* ===================================================================== *)
(** * The downloader on the session of session.go *)
(* ===================================================================== *)

Section OnFanbox.
Variable parseURL : string -> option string.
Variable decodePage : string -> string + Page.
Variable UnixNano : nat -> Z.
Variable Uint32 : nat -> Z.
Variable PathEscape : string -> string.

Lemma Get_failed {A} (decode : string -> string + A) url sc :
  0 <= Retries sc ->
  exists e, fst (Get parseURL decode url sc) = Failed e.
Proof.
  intros Hr. unfold Get.
  pose proof (get_never_succeeds parseURL url
                {[ "Accept" := ["application/json, text/plain, */*"] ]} sc Hr)
    as Hn.
  destruct (get parseURL url _ sc) as [res sc1]. cbn [fst] in Hn.
  destruct (got_err res) as [e |]; [eauto | contradiction].
Qed.

(** X28.  On the session of [fanbox/session.go], with a page limit of at
    least one and a retry count that is not negative, [main] gets no
    further than its initial poll: the first listing fails, [main] returns
    the error "failed to get supporting posts page 0", the disk is as it
    was, and no download has been started. *)
Theorem main_fails_on_fanbox_session c ticks fs sc :
  0 < MaxPageBehind c ->
  0 <= MaxRetries c ->
  exists e w',
    main (H:=fanboxSession parseURL decodePage) UnixNano Uint32 PathEscape
      c ticks (newApp (H:=fanboxSession parseURL decodePage) c fs sc)
    = Done (Some (ErrGetPage 0 e)) w' /\
    w_fs w' = fs /\ w_running w' = [] /\
    w_trace w' = [CallSupportingPosts].
Proof.
  intros Hm Hr. unfold main, Main.poll.
  destruct (Z.to_nat (MaxPageBehind c)) as [| n] eqn:En; [lia |].
  cbn [Main.pollLoop]. unfold bind at 1. unfold bind at 1. cbn [Z.eqb].
  unfold bind at 1. unfold callSupportingPosts.
  cbn [SupportingPosts fanboxSession w_session newApp setRetries].
  unfold Fanbox.SupportingPosts, Fanbox.PostsFromURL.
  destruct (Get_failed decodePage (APIURL ++ "/post.listSupporting?limit=10")
              (mkSessionClient (HTTPClient sc) (MaxRetries c)) Hr) as [e He].
  destruct (Get parseURL decodePage _ _) as [r sc1]. cbn [fst] in He.
  subst r. eexists _, _. split; [reflexivity |]. cbn. auto.
Qed.
End OnFanbox.

Lemma main_fails_on_fanbox_session_witness :
  exists e w',
    main (H:=fanboxSession Sample.parses (fun _ => inl "not json"))
      Sample.nano Sample.rnd Sample.escape Sample.config 3
      (newApp (H:=fanboxSession Sample.parses (fun _ => inl "not json"))
         Sample.config ∅ (mkSessionClient (Sample.always Sample.ok200) 0))
    = Done (Some (ErrGetPage 0 e)) w' /\ w_fs w' = ∅.
Proof.
  destruct (main_fails_on_fanbox_session Sample.parses
              (fun _ => inl "not json") Sample.nano Sample.rnd Sample.escape
              Sample.config 3 ∅ (mkSessionClient (Sample.always Sample.ok200) 0)
              ltac:(simpl; lia) ltac:(simpl; lia))
    as (e & w' & E & Hfs & _).
  exists e, w'. split; [exact E | exact Hfs].
Defined.


(* ===================================================================== *)
(** * Where an item is put, and what its info file says *)
(* ===================================================================== *)

Section Placement.

Lemma cleanOnto_app rooted l2 : forall l1 out,
  cleanOnto rooted out (l1 ++ l2) =
  cleanOnto rooted (rev (cleanOnto rooted out l1)) l2.
Proof.
  induction l1 as [| e l1 IH]; intros out.
  - cbn [app cleanOnto]. rewrite rev_involutive. reflexivity.
  - cbn [app cleanOnto].
    destruct (String.eqb e "" || String.eqb e "."); [apply IH |].
    destruct (String.eqb e ".."); [| apply IH].
    destruct out as [| top out']; [destruct rooted; apply IH |].
    destruct (String.eqb top ".."); apply IH.
Qed.

Lemma cleanOnto_two rooted l a b :
  (length (cleanOnto rooted [] (l ++ [a] ++ [b]))
   <= length (cleanOnto rooted [] l) + 2)%nat.
Proof.
  rewrite cleanOnto_app, cleanOnto_app.
  etransitivity; [apply cleanOnto_one |]. rewrite length_rev.
  pose proof (cleanOnto_one rooted (rev (cleanOnto rooted [] l)) a) as Ha.
  rewrite length_rev in Ha. lia.
Qed.

Lemma no_slash_in_front s : occurs slash s = false -> startsWithSlash s = false.
Proof.
  destruct s as [| c s]; [reflexivity |]. cbn [occurs startsWithSlash].
  intros Ho. apply orb_false_iff in Ho as [Hc _].
  rewrite Ascii.eqb_sym. exact Hc.
Qed.

Lemma pretty_N_go_no_slash (x : N) : forall s,
  occurs slash s = false -> occurs slash (pretty_N_go x s) = false.
Proof.
  induction (N.lt_wf_0 x) as [x _ IH]. intros s Hs.
  destruct (N.eq_dec x 0%N) as [-> | Hx]; [exact Hs |].
  rewrite pretty_N_go_step by lia.
  apply IH; [apply N.div_lt; lia |].
  cbn [occurs]. rewrite Hs, orb_false_r.
  unfold pretty_N_char. repeat case_match; reflexivity.
Qed.

Lemma pretty_N_no_slash (x : N) : occurs slash (pretty x) = false.
Proof.
  unfold pretty, pretty_N. destruct (decide (x = 0%N)); [reflexivity |].
  apply pretty_N_go_no_slash. reflexivity.
Qed.

Lemma zeros_no_slash k :
  occurs slash (String.concat "" (repeat "0" k)) = false.
Proof.
  induction k as [| k IH]; [reflexivity |].
  cbn [repeat String.concat]. destruct (repeat "0" k); [reflexivity |].
  rewrite !occurs_append, IH. reflexivity.
Qed.

Lemma appendInt_no_slash x width : occurs slash (appendInt x width) = false.
Proof.
  unfold appendInt, pad0.
  rewrite !occurs_append, zeros_no_slash, pretty_N_no_slash.
  destruct (x <? 0); reflexivity.
Qed.

Lemma Format_no_slash t : occurs slash (Format_2006_01_02 t) = false.
Proof.
  unfold Format_2006_01_02.
  rewrite !occurs_append, !appendInt_no_slash. reflexivity.
Qed.

Lemma cleanOnto_plain rooted out e l :
  String.eqb e "" = false -> String.eqb e "." = false ->
  String.eqb e ".." = false ->
  cleanOnto rooted out (e :: l) = cleanOnto rooted (e :: out) l.
Proof. intros H1 H2 H3. cbn [cleanOnto]. rewrite H1, H2, H3. reflexivity. Qed.

Lemma has_colon_plain s :
  occurs ":" s = true ->
  String.eqb s "" = false /\ String.eqb s "." = false /\
  String.eqb s ".." = false.
Proof.
  intros Ho. repeat split; apply String.eqb_neq; intros ->; discriminate.
Qed.

(** X29.  Where the directory of an item lies.  It is an absolute path
    exactly when [DestDir] is one.  It has at most two path elements more
    than the cleaned [DestDir], whatever separators the creator id and the
    title hold.  And unless the sanitized creator id is empty, "." or "..",
    it is exactly the cleaned [DestDir] followed by two elements, the
    sanitized creator id and the date with the sanitized title. *)
Theorem itemDir_two_levels c item :
  let creator := sanitizePath (CreatorID (base item)) in
  let dated :=
    (Format_2006_01_02 (PublishedDateTime (base item)) ++ ": " ++
     sanitizePath (Title (base item)))%string in
  fst (itemDir c item) = startsWithSlash (DestDir c) /\
  (length (snd (itemDir c item))
   <= length (snd (Join [DestDir c])) + 2)%nat /\
  (creator <> "" -> creator <> "." -> creator <> ".." ->
   snd (itemDir c item) = (snd (Join [DestDir c]) ++ [creator; dated])%list).
Proof.
  cbv zeta. unfold itemDir.
  set (a := sanitizePath (CreatorID (base item))).
  set (b := (Format_2006_01_02 (PublishedDateTime (base item)) ++ ": " ++
             sanitizePath (Title (base item)))%string).
  assert (Ha : occurs slash a = false) by apply sanitizePath_clean.
  assert (Hb : occurs slash b = false).
  { unfold b. rewrite !occurs_append, Format_no_slash.
    destruct (sanitizePath_clean (Title (base item))) as [-> _]. reflexivity. }
  assert (Hcolon : occurs ":" b = true).
  { unfold b. rewrite !occurs_append. cbn [occurs].
    rewrite Ascii.eqb_refl. cbn [orb]. apply orb_true_r. }
  destruct (has_colon_plain b Hcolon) as (Hb1 & Hb2 & Hb3).
  assert (Hsa : splitSlash a = [a]) by apply splitSlash_one, Ha.
  assert (Hsb : splitSlash b = [b]) by apply splitSlash_one, Hb.
  apply no_slash_in_front in Ha, Hb.
  unfold Join. cbn [dropEmpty].
  destruct (String.eqb (DestDir c) "") eqn:Ed.
  - apply String.eqb_eq in Ed. rewrite Ed. cbn [startsWithSlash].
    destruct (String.eqb a "") eqn:Ea.
    + rewrite Hb1. cbn [fst snd map concat app]. rewrite Hb, Hsb.
      split; [reflexivity |]. split.
      * etransitivity; [apply cleanOnto_one |]. cbn. lia.
      * intros Hne. apply String.eqb_eq in Ea. contradiction.
    + cbn [fst snd map concat app]. rewrite Ha, Hsa, Hsb.
      split; [reflexivity |]. split.
      * etransitivity; [apply (cleanOnto_two false [] a b) |]. cbn. lia.
      * intros _ H2 H3. apply String.eqb_neq in H2, H3.
        cbn [app]. rewrite !cleanOnto_plain by assumption. reflexivity.
  - cbn [fst snd map concat]. rewrite Hsa, Hsb, !app_nil_r.
    split; [reflexivity |]. split; [apply cleanOnto_two |].
    intros H1 H2 H3. apply String.eqb_neq in H1, H2, H3.
    cbn [app]. rewrite cleanOnto_app.
    rewrite !cleanOnto_plain by assumption.
    cbn [cleanOnto rev]. rewrite rev_involutive, <- app_assoc. reflexivity.
Qed.
End Placement.

Lemma itemDir_two_levels_witness :
  snd (itemDir (mkConfig "sid" "/srv/fanbox" 1 4 2 300 []) Sample.oneImage)
  = (snd (Join ["/srv/fanbox"]) ++
     [sanitizePath "cre/ator";
      (Format_2006_01_02 Sample.day ++ ": " ++ sanitizePath "C")%string])%list.
Proof.
  apply (proj2 (proj2 (itemDir_two_levels
                         (mkConfig "sid" "/srv/fanbox" 1 4 2 300 [])
                         Sample.oneImage)));
    discriminate.
Defined.

Section InfoFile.
Context {S : Type} `{Session S}.
Variable UnixNano : nat -> Z.
Variable Uint32 : nat -> Z.
Variable PathEscape : string -> string.

Abbreviation World := (World (S:=S)).
Abbreviation downloadPage := (downloadPage UnixNano Uint32 PathEscape).
Abbreviation nextTmp := (nextTmp (S:=S) UnixNano Uint32).

(** X30.  What the info file says.  For an item whose directory and
    attachment files are on disk but whose info file is not, and with the
    temporary name not taken by a directory, [downloadPage] starts no
    download, returns [lastFetched = true], and writes the info file with
    the item's URL, an empty line and the item's text; nothing else on disk
    changes. *)
Theorem downloadPage_writes_info c item urls text next (w : World) :
  itemURLs c item = Some (urls, text) ->
  urls <> [] ->
  isDir (w_fs w) (itemDir c item) = true ->
  itemComplete c (w_fs w) item = true ->
  lstat (w_fs w) (JoinDir (itemDir c item) "info") = None ->
  isDir (w_fs w) (nextTmp (itemDir c item) w) = false ->
  downloadPage c (mkPage (mkPageBody [item] next)) w =
  Done (true, None)
    (set_fs
       (<[JoinDir (itemDir c item) "info" :=
            NFile (ItemBase_URL PathEscape (base item) ++
                   String (ascii_of_nat 10) (String (ascii_of_nat 10) text))]>
          (delete (nextTmp (itemDir c item) w) (w_fs w)))
       (set_ticks (Datatypes.S (w_ticks w)) w)).
Proof.
  intros Hu Hne Hdir Hfiles Hinfo Htmp.
  destruct urls as [| url urls]; [contradiction |].
  unfold Main.downloadPage. cbn [Items PBody].
  rewrite (downloadItems_processed UnixNano Uint32 PathEscape
             c item [] url urls text) by exact Hu.
  unfold bind at 1. unfold sys.
  rewrite (MkdirAll_existing _ _ Hdir), set_fs_same.
  unfold itemComplete, urlsOf in Hfiles. rewrite Hu in Hfiles.
  unfold bind at 1.
  rewrite (downloadURLs_all_present UnixNano Uint32) by exact Hfiles.
  unfold bind at 1.
  unfold Main.writeText, bind, Main.tmpFilename.
  rewrite stat_run. cbn [w_fs set_ticks]. unfold Stat. rewrite Hinfo.
  unfold sys. cbn [w_fs set_ticks]. fold (nextTmp (itemDir c item) w).
  rewrite (writeTmp_ok (JoinDir (itemDir c item) "info")
             (nextTmp (itemDir c item) w)).
  - cbn [Main.downloadItems ret]. rewrite Z.add_0_l, Z.eqb_refl. reflexivity.
  - apply nextTmp_not_plain; [discriminate | reflexivity ..].
  - rewrite nextTmp_parent. symmetry. apply plain_parent; reflexivity.
  - rewrite plain_parent by reflexivity. exact Hdir.
  - exact Htmp.
  - unfold isDir. rewrite Hinfo. reflexivity.
  - reflexivity.
  - reflexivity.
Qed.
End InfoFile.

Lemma downloadPage_writes_info_witness :
  w_fs (worldOf
          (downloadPage Sample.nano Sample.rnd Sample.escape Sample.config
             (Sample.pageOf [Sample.oneImage])
             (mkWorld
                (<[JoinDir (itemDir Sample.config Sample.oneImage) "c.png"
                   := NFile "png"]> Sample.dirOnly)
                (Sample.script (Sample.pageOf [])) (NewWeighted 4) [] 0 [])))
    !! JoinDir (itemDir Sample.config Sample.oneImage) "info"
  = Some (NFile (ItemBase_URL Sample.escape (base Sample.oneImage) ++
                 String (ascii_of_nat 10) (String (ascii_of_nat 10) "txt"))).
Proof.
  rewrite (downloadPage_writes_info Sample.nano Sample.rnd Sample.escape
             Sample.config Sample.oneImage ["https://x/c.png"] "txt" ""
             (mkWorld
                (<[JoinDir (itemDir Sample.config Sample.oneImage) "c.png"
                   := NFile "png"]> Sample.dirOnly)
                (Sample.script (Sample.pageOf [])) (NewWeighted 4) [] 0 []));
    try reflexivity.
  discriminate.
Defined.
